(** * seller-apis: reconciliation of a stock feed against two marketplaces

    A shallow embedding of [seller.py] (the Ozon integration, "Marketplace B"
    of the specification) and [market.py] (the Yandex.Market integration,
    "Marketplace A"), followed by the properties the specification states
    about them.

    Python values are modelled as follows.
    - [str] is [string]: the UTF-8 bytes of the text.  Every character the
      code inspects (['.'], the digits, ['>'], the sign, ASCII white space) is
      ASCII, and no byte of a multi-byte UTF-8 character is below 128, so
      splitting and filtering bytes agrees with splitting and filtering code
      points.
    - [int] is [Z] (Python integers are unbounded).
    - a feed record is a [dict], modelled as [gmap string PyVal]; [d.get(k)]
      is the lookup with [None] for a missing key.
    - [offer_ids] is the Python [list] returned by [get_offer_ids]; it is a
      mutable object shared with the caller, so the functions that receive it
      return its final contents next to their result.
    - a raised exception is an [Err] result; the state reached so far stays. *)

From Stdlib Require Import ZArith String Ascii DecimalString DecimalPos DecimalZ.
From stdpp Require Import base option list gmap strings.

Local Open Scope Z_scope.

(** ** Python values and builtins *)

Inductive PyVal : Type :=
  | PyNone
  | PyStr (s : string)
  | PyInt (z : Z).

Global Instance PyVal_eq_dec : EqDecision PyVal.
Proof. solve_decision. Defined.

(** Outcome of a computation that may raise. *)
Inductive Exn : Type :=
  | ValueError
  | TypeError
  | AttributeError
  | HTTPError.

Inductive Res (A : Type) : Type :=
  | Ok (a : A)
  | Err (e : Exn).
Global Arguments Ok {A} a.
Global Arguments Err {A} e.

Definition res_map {A B} (f : A → B) (r : Res A) : Res B :=
  match r with
  | Ok a => Ok (f a)
  | Err e => Err e
  end.

(** [str(v)] *)
Definition py_str (v : PyVal) : string :=
  match v with
  | PyNone => "None"
  | PyStr s => s
  | PyInt z => NilZero.string_of_int (Z.to_int z)
  end.

(** The characters [int()] skips around a literal. *)
Definition py_isspace (c : ascii) : bool :=
  Ascii.is_space c || bool_decide (28 ≤ nat_of_ascii c ≤ 31)%nat.

Definition is_digit (c : ascii) : bool :=
  match Ascii.is_nat c with
  | Some _ => true
  | None => false
  end.

Fixpoint lstrip (s : string) : string :=
  match s with
  | "" => ""
  | String c r => if py_isspace c then lstrip r else s
  end.

Fixpoint rstrip (s : string) : string :=
  match s with
  | "" => ""
  | String c r =>
      match rstrip r with
      | "" => if py_isspace c then "" else String c ""
      | r' => String c r'
      end
  end.

Definition py_strip (s : string) : string := rstrip (lstrip s).

(** The digit part of a decimal literal: digits, with single underscores
    allowed between two digits.  [prev] tells whether the previous character
    was a digit. *)
Fixpoint int_digits (acc : Z) (prev : bool) (s : string) : option Z :=
  match s with
  | "" => if prev then Some acc else None
  | String c r =>
      match Ascii.is_nat c with
      | Some d => int_digits (10 * acc + Z.of_nat d) true r
      | None =>
          if bool_decide (c = "_"%char) && prev
          then int_digits acc false r
          else None
      end
  end.

(** [int(s)] for a [str] in base 10: optional white space, an optional sign,
    the digits, optional white space.  The ASCII fragment is modelled;
    the interpreter's configurable cap on the number of digits is not. *)
Definition py_int_str (s : string) : Res Z :=
  let t := py_strip s in
  let parsed :=
    match t with
    | String "-"%char r => Z.opp <$> int_digits 0 false r
    | String "+"%char r => int_digits 0 false r
    | _ => int_digits 0 false t
    end in
  match parsed with
  | Some z => Ok z
  | None => Err ValueError
  end.

(** [int(v)] *)
Definition py_int (v : PyVal) : Res Z :=
  match v with
  | PyNone => Err TypeError
  | PyStr s => py_int_str s
  | PyInt z => Ok z
  end.

(** [s.split(sep)] for a one-character separator. *)
Fixpoint py_split (sep : ascii) (s : string) : list string :=
  match s with
  | "" => [""]
  | String c r =>
      if bool_decide (c = sep) then "" :: py_split sep r
      else match py_split sep r with
           | x :: xs => String c x :: xs
           | [] => [String c ""]
           end
  end.

(** [re.sub("[^0-9]", "", s)]: every character outside the class [0-9] is
    replaced by the empty string. *)
Fixpoint re_sub_non_digits (s : string) : string :=
  match s with
  | "" => ""
  | String c r =>
      if is_digit c then String c (re_sub_non_digits r)
      else re_sub_non_digits r
  end.

(** [x in l] and [l.remove(x)] on a Python list. *)
Definition py_in (x : string) (l : list string) : bool := bool_decide (x ∈ l).

Fixpoint py_remove (x : string) (l : list string) : Res (list string) :=
  match l with
  | [] => Err ValueError
  | y :: r =>
      if bool_decide (y = x) then Ok r
      else res_map (cons y) (py_remove x r)
  end.

(** [range(start, stop, step)] as the list of its elements. *)
Definition py_range (start stop step : Z) : Res (list Z) :=
  if (step =? 0)%Z then Err ValueError
  else
    let len :=
      if (0 <? step)%Z
      then (if (start <? stop)%Z then (stop - start - 1) / step + 1 else 0)
      else (if (stop <? start)%Z then (start - stop - 1) / (- step) + 1 else 0) in
    Ok ((λ k : nat, start + Z.of_nat k * step) <$> seq 0 (Z.to_nat len)).

(** [lst[i:j]] for [0 <= i] and [0 <= j] (indices past the end are clipped). *)
Definition py_slice {A} (lst : list A) (i j : Z) : list A :=
  take (Z.to_nat j - Z.to_nat i) (drop (Z.to_nat i) lst).

(** A feed record. *)
Abbreviation Watch := (gmap string PyVal).

Definition dict_get (d : Watch) (k : string) : PyVal :=
  default PyNone (d !! k).

(** ** seller.py, the functions shared with market.py *)

(** [price_conversion]: [re.sub("[^0-9]", "", price.split(".")[0])].
    [split] never returns an empty list. *)
Definition price_conversion (price : string) : string :=
  match py_split "."%char price with
  | first :: _ => re_sub_non_digits first
  | [] => ""
  end.

(** [price_conversion] applied to what [watch.get("Цена")] returns: only a
    [str] has a [split] method. *)
Definition price_conversion_val (v : PyVal) : Res string :=
  match v with
  | PyStr s => Ok (price_conversion s)
  | _ => Err AttributeError
  end.

(** [divide]: [for i in range(0, len(lst), n): yield lst[i : i + n]],
    as the list of the chunks the generator yields. *)
Definition divide {A} (lst : list A) (n : Z) : Res (list (list A)) :=
  res_map (fmap (λ i, py_slice lst i (i + n)))
    (py_range 0 (Z.of_nat (length lst)) n).

(** [for x in xs: call(x)], the loop that posts the batches: its outcome,
    the store it leaves, and (as a record of what was posted) the arguments
    of the calls it made, the failing one included.  The loop has no handler,
    so the first call that raises ends it. *)
Fixpoint for_each {X Resp Srv : Type} (call : X → Srv → Res Resp * Srv)
    (xs : list X) (srv : Srv) : Res unit * Srv * list X :=
  match xs with
  | [] => (Ok (), srv, [])
  | x :: rest =>
      match call x srv with
      | (Err e, srv') => (Err e, srv', [x])
      | (Ok _, srv') =>
          let '(r, srv'', sent) := for_each call rest srv' in
          (r, srv'', x :: sent)
      end
  end.

(** The quantity rule of [create_stocks], the same lines in both files:
    [count = str(watch.get("Количество"))], then [100] for [">10"], [0] for
    ["1"], and [int(watch.get("Количество"))] otherwise. *)
Definition normalized_stock (watch : Watch) : Res Z :=
  let count := py_str (dict_get watch "Количество") in
  if bool_decide (count = ">10") then Ok 100
  else if bool_decide (count = "1") then Ok 0
  else py_int (dict_get watch "Количество").

(** ** seller.py *)

Module Seller.

(** [{"offer_id": ..., "stock": ...}] *)
Record Stock : Type := { offer_id : string; stock : Z }.

(** The entry [create_prices] builds. *)
Record Price : Type := {
  auto_action_enabled : string;
  currency_code : string;
  price_offer_id : string;
  old_price : string;
  price : string
}.

(** An item of the product list, and the [result] object of one page with
    its keys [items], [total] and [last_id]. *)
Record Product : Type := { product_offer_id : string }.
Record ProductPage : Type := {
  r_items : list Product;
  r_total : Z;
  r_last_id : string
}.

(** The first loop of [create_stocks]; [stocks] and [offer_ids] are the two
    lists it updates in place. *)
Fixpoint stocks_loop (watch_remnants : list Watch) (stocks : list Stock)
    (offer_ids : list string) : Res (list Stock) * list string :=
  match watch_remnants with
  | [] => (Ok stocks, offer_ids)
  | watch :: rest =>
      let code := py_str (dict_get watch "Код") in
      if py_in code offer_ids then
        match normalized_stock watch with
        | Err e => (Err e, offer_ids)
        | Ok n =>
            let stocks' := stocks ++ [{| offer_id := code; stock := n |}] in
            match py_remove code offer_ids with
            | Err e => (Err e, offer_ids)
            | Ok offer_ids' => stocks_loop rest stocks' offer_ids'
            end
        end
      else stocks_loop rest stocks offer_ids
  end.

(** [create_stocks]: the result and the final contents of the caller's
    [offer_ids] list. *)
Definition create_stocks (watch_remnants : list Watch)
    (offer_ids : list string) : Res (list Stock) * list string :=
  match stocks_loop watch_remnants [] offer_ids with
  | (Ok stocks, offer_ids') =>
      (Ok (stocks ++ ((λ id, {| offer_id := id; stock := 0 |}) <$> offer_ids')),
       offer_ids')
  | (Err e, offer_ids') => (Err e, offer_ids')
  end.

Fixpoint prices_loop (watch_remnants : list Watch) (prices : list Price)
    (offer_ids : list string) : Res (list Price) :=
  match watch_remnants with
  | [] => Ok prices
  | watch :: rest =>
      if py_in (py_str (dict_get watch "Код")) offer_ids then
        match price_conversion_val (dict_get watch "Цена") with
        | Err e => Err e
        | Ok p =>
            prices_loop rest
              (prices ++ [{| auto_action_enabled := "UNKNOWN";
                             currency_code := "RUB";
                             price_offer_id := py_str (dict_get watch "Код");
                             old_price := "0";
                             price := p |}])
              offer_ids
        end
      else prices_loop rest prices offer_ids
  end.

(** [create_prices] never writes to [offer_ids]. *)
Definition create_prices (watch_remnants : list Watch)
    (offer_ids : list string) : Res (list Price) * list string :=
  (prices_loop watch_remnants [] offer_ids, offer_ids).

Section Resolver.
(** The store behind the HTTP endpoint and [get_product_list], which
    posts [last_id] to it and returns the [result] object of the
    response, or raises. *)
Context {Srv : Type}.
Variable get_product_list :
  string → string → string → Srv → Res ProductPage * Srv.

(** The [while True] loop of [get_offer_ids]; [None] when [fuel]
    iterations did not reach the [break]. *)
Fixpoint product_loop (fuel : nat) (client_id seller_token : string)
    (last_id : string) (product_list : list Product) (srv : Srv)
    : option (Res (list Product) * Srv) :=
  match fuel with
  | O => None
  | S fuel' =>
      match get_product_list last_id client_id seller_token srv with
      | (Err e, srv') => Some (Err e, srv')
      | (Ok some_prod, srv') =>
          let product_list' := product_list ++ r_items some_prod in
          if bool_decide (r_total some_prod = Z.of_nat (length product_list'))
          then Some (Ok product_list', srv')
          else product_loop fuel' client_id seller_token
                 (r_last_id some_prod) product_list' srv'
      end
  end.

Definition get_offer_ids (fuel : nat) (client_id seller_token : string)
    (srv : Srv) : option (Res (list string) * Srv) :=
  match product_loop fuel client_id seller_token "" [] srv with
  | None => None
  | Some (r, srv') => Some (res_map (fmap product_offer_id) r, srv')
  end.
End Resolver.

Section Uploads.
(** The endpoints behind [get_product_list], [update_stocks] and
    [update_price], and [download_stock], which fetches and parses the
    feed.  The functions below return, next to their outcome and the store,
    the batches they posted. *)
Context {Srv Resp : Type}.
Variable get_product_list :
  string → string → string → Srv → Res ProductPage * Srv.
Variable update_stocks : list Stock → string → string → Srv → Res Resp * Srv.
Variable update_price : list Price → string → string → Srv → Res Resp * Srv.
Variable download_stock : Srv → Res (list Watch) * Srv.

(** [upload_prices]; the function has no [await] in its body. *)
Definition upload_prices (fuel : nat) (watch_remnants : list Watch)
    (client_id seller_token : string) (srv : Srv)
    : option (Res (list Price) * Srv * list (list Price)) :=
  match get_offer_ids get_product_list fuel client_id seller_token srv with
  | None => None
  | Some (Err e, srv1) => Some (Err e, srv1, [])
  | Some (Ok offer_ids, srv1) =>
      match create_prices watch_remnants offer_ids with
      | (Err e, _) => Some (Err e, srv1, [])
      | (Ok prices, _) =>
          match divide prices 1000 with
          | Err e => Some (Err e, srv1, [])
          | Ok batches =>
              match for_each (λ some_price,
                                update_price some_price client_id seller_token)
                      batches srv1 with
              | (Err e, srv2, sent) => Some (Err e, srv2, sent)
              | (Ok _, srv2, sent) => Some (Ok prices, srv2, sent)
              end
          end
      end
  end.

(** [upload_stocks]: returns [(not_empty, stocks)]. *)
Definition upload_stocks (fuel : nat) (watch_remnants : list Watch)
    (client_id seller_token : string) (srv : Srv)
    : option (Res (list Stock * list Stock) * Srv * list (list Stock)) :=
  match get_offer_ids get_product_list fuel client_id seller_token srv with
  | None => None
  | Some (Err e, srv1) => Some (Err e, srv1, [])
  | Some (Ok offer_ids, srv1) =>
      match create_stocks watch_remnants offer_ids with
      | (Err e, _) => Some (Err e, srv1, [])
      | (Ok stocks, _) =>
          match divide stocks 100 with
          | Err e => Some (Err e, srv1, [])
          | Ok batches =>
              match for_each (λ some_stock,
                                update_stocks some_stock client_id seller_token)
                      batches srv1 with
              | (Err e, srv2, sent) => Some (Err e, srv2, sent)
              | (Ok _, srv2, sent) =>
                  let not_empty := filter (λ stock_, stock stock_ ≠ 0) stocks in
                  Some (Ok (not_empty, stocks), srv2, sent)
              end
          end
      end
  end.

(** The [try] block of [main], from [get_offer_ids] to the last
    [update_price]; the tokens are what the environment holds.  The list
    [offer_ids] that [create_prices] receives is the object
    [create_stocks] has written to.  Returned are the outcome, the store,
    the stock batches posted and the price batches posted. *)
Definition main_try (fuel : nat) (client_id seller_token : string) (srv : Srv)
    : option (Res unit * Srv * list (list Stock) * list (list Price)) :=
  match get_offer_ids get_product_list fuel client_id seller_token srv with
  | None => None
  | Some (Err e, srv1) => Some (Err e, srv1, [], [])
  | Some (Ok offer_ids, srv1) =>
      match download_stock srv1 with
      | (Err e, srv2) => Some (Err e, srv2, [], [])
      | (Ok watch_remnants, srv2) =>
          match create_stocks watch_remnants offer_ids with
          | (Err e, _) => Some (Err e, srv2, [], [])
          | (Ok stocks, offer_ids') =>
              match divide stocks 100 with
              | Err e => Some (Err e, srv2, [], [])
              | Ok batches =>
                  match for_each
                          (λ some_stock,
                             update_stocks some_stock client_id seller_token)
                          batches srv2 with
                  | (Err e, srv3, sent) => Some (Err e, srv3, sent, [])
                  | (Ok _, srv3, sent) =>
                      match create_prices watch_remnants offer_ids' with
                      | (Err e, _) => Some (Err e, srv3, sent, [])
                      | (Ok prices, _) =>
                          match divide prices 900 with
                          | Err e => Some (Err e, srv3, sent, [])
                          | Ok price_batches =>
                              let '(r, srv4, price_sent) :=
                                for_each
                                  (λ some_price,
                                     update_price some_price
                                       client_id seller_token)
                                  price_batches srv3 in
                              Some (r, srv4, sent, price_sent)
                          end
                      end
                  end
              end
          end
      end
  end.
End Uploads.

End Seller.

(** ** market.py *)

Module Market.

(** [{"count": ..., "type": "FIT", "updatedAt": ...}] and the entry around it. *)
Record Item : Type := { count : Z; type : string; updatedAt : string }.
Record Stock : Type := {
  sku : string;
  warehouseId : string;
  stock_items : list Item
}.

(** [{"id": ..., "price": {"value": ..., "currencyId": "RUR"}}] *)
Record PriceValue : Type := { value : Z; currencyId : string }.
Record Price : Type := { id : string; price : PriceValue }.

(** One page of the offer mapping: the entries and [paging.nextPageToken],
    [None] when the key is absent. *)
Record Offer : Type := { shopSku : string }.
Record OfferMappingEntry : Type := { offer : Offer }.
Record Paging : Type := { nextPageToken : option string }.
Record OfferPage : Type := {
  offerMappingEntries : list OfferMappingEntry;
  paging : Paging
}.

Definition stock_entry (sku_ warehouse_id : string) (n : Z) (date : string)
    : Stock :=
  {| sku := sku_;
     warehouseId := warehouse_id;
     stock_items := [{| count := n; type := "FIT"; updatedAt := date |}] |}.

(** The first loop of [create_stocks]. *)
Fixpoint stocks_loop (watch_remnants : list Watch) (warehouse_id date : string)
    (stocks : list Stock) (offer_ids : list string)
    : Res (list Stock) * list string :=
  match watch_remnants with
  | [] => (Ok stocks, offer_ids)
  | watch :: rest =>
      let code := py_str (dict_get watch "Код") in
      if py_in code offer_ids then
        match normalized_stock watch with
        | Err e => (Err e, offer_ids)
        | Ok n =>
            let stocks' := stocks ++ [stock_entry code warehouse_id n date] in
            match py_remove code offer_ids with
            | Err e => (Err e, offer_ids)
            | Ok offer_ids' =>
                stocks_loop rest warehouse_id date stocks' offer_ids'
            end
        end
      else stocks_loop rest warehouse_id date stocks offer_ids
  end.

(** [create_stocks].  [utcnow] is what the clock reads when the function
    starts, already formatted: the value of
    [str(datetime.datetime.utcnow().replace(microsecond=0).isoformat() + "Z")]. *)
Definition create_stocks (utcnow : string) (watch_remnants : list Watch)
    (offer_ids : list string) (warehouse_id : string)
    : Res (list Stock) * list string :=
  let date := utcnow in
  match stocks_loop watch_remnants warehouse_id date [] offer_ids with
  | (Ok stocks, offer_ids') =>
      (Ok (stocks ++
           ((λ offer_id, stock_entry offer_id warehouse_id 0 date) <$> offer_ids')),
       offer_ids')
  | (Err e, offer_ids') => (Err e, offer_ids')
  end.

Fixpoint prices_loop (watch_remnants : list Watch) (prices : list Price)
    (offer_ids : list string) : Res (list Price) :=
  match watch_remnants with
  | [] => Ok prices
  | watch :: rest =>
      if py_in (py_str (dict_get watch "Код")) offer_ids then
        match price_conversion_val (dict_get watch "Цена") with
        | Err e => Err e
        | Ok p =>
            match py_int_str p with
            | Err e => Err e
            | Ok v =>
                prices_loop rest
                  (prices ++ [{| id := py_str (dict_get watch "Код");
                                 price := {| value := v; currencyId := "RUR" |} |}])
                  offer_ids
            end
        end
      else prices_loop rest prices offer_ids
  end.

Definition create_prices (watch_remnants : list Watch)
    (offer_ids : list string) : Res (list Price) * list string :=
  (prices_loop watch_remnants [] offer_ids, offer_ids).

(** [not page] *)
Definition py_not (page : option string) : bool :=
  match page with
  | None => true
  | Some s => bool_decide (s = "")
  end.

Section Resolver.
Context {Srv : Type}.
Variable get_product_list :
  option string → string → string → Srv → Res OfferPage * Srv.

(** The [while True] loop of [get_offer_ids]; [page] starts as [""] and
    is afterwards whatever [nextPageToken] held. *)
Fixpoint product_loop (fuel : nat) (campaign_id market_token : string)
    (page : option string) (product_list : list OfferMappingEntry)
    (srv : Srv) : option (Res (list OfferMappingEntry) * Srv) :=
  match fuel with
  | O => None
  | S fuel' =>
      match get_product_list page campaign_id market_token srv with
      | (Err e, srv') => Some (Err e, srv')
      | (Ok some_prod, srv') =>
          let product_list' := product_list ++ offerMappingEntries some_prod in
          let page' := nextPageToken (paging some_prod) in
          if py_not page' then Some (Ok product_list', srv')
          else product_loop fuel' campaign_id market_token
                 page' product_list' srv'
      end
  end.

Definition get_offer_ids (fuel : nat) (campaign_id market_token : string)
    (srv : Srv) : option (Res (list string) * Srv) :=
  match product_loop fuel campaign_id market_token (Some "") [] srv with
  | None => None
  | Some (r, srv') => Some (res_map (fmap (λ product, shopSku (offer product))) r, srv')
  end.
End Resolver.

(** What [upload_stocks] may end with: its pair of lists, an exception of
    the functions it calls, or the [IndexError] of [stock.get("items")[0]]
    on an entry without items. *)
Inductive UploadOutcome : Type :=
  | Uploaded (not_empty stocks : list Stock)
  | Raised (e : Exn)
  | RaisedIndexError.

(** [stock.get("items")[0].get("count") != 0]; [None] is the [IndexError]. *)
Definition has_count (stock : Stock) : option bool :=
  match stock_items stock with
  | item :: _ => Some (negb (count item =? 0))
  | [] => None
  end.

(** [list(filter(lambda stock: ..., stocks))] *)
Fixpoint filter_has_count (stocks : list Stock) : option (list Stock) :=
  match stocks with
  | [] => Some []
  | stock :: rest =>
      match has_count stock with
      | None => None
      | Some keep =>
          match filter_has_count rest with
          | None => None
          | Some l => Some (if keep then stock :: l else l)
          end
      end
  end.

Section Uploads.
Context {Srv Resp : Type}.
Variable get_product_list :
  option string → string → string → Srv → Res OfferPage * Srv.
Variable update_stocks : list Stock → string → string → Srv → Res Resp * Srv.
Variable update_price : list Price → string → string → Srv → Res Resp * Srv.

(** [upload_prices]; the function has no [await] in its body. *)
Definition upload_prices (fuel : nat) (watch_remnants : list Watch)
    (campaign_id market_token : string) (srv : Srv)
    : option (Res (list Price) * Srv * list (list Price)) :=
  match get_offer_ids get_product_list fuel campaign_id market_token srv with
  | None => None
  | Some (Err e, srv1) => Some (Err e, srv1, [])
  | Some (Ok offer_ids, srv1) =>
      match create_prices watch_remnants offer_ids with
      | (Err e, _) => Some (Err e, srv1, [])
      | (Ok prices, _) =>
          match divide prices 500 with
          | Err e => Some (Err e, srv1, [])
          | Ok batches =>
              match for_each (λ some_prices,
                                update_price some_prices campaign_id market_token)
                      batches srv1 with
              | (Err e, srv2, sent) => Some (Err e, srv2, sent)
              | (Ok _, srv2, sent) => Some (Ok prices, srv2, sent)
              end
          end
      end
  end.

(** [upload_stocks]; [utcnow] is the clock reading [create_stocks] takes. *)
Definition upload_stocks (fuel : nat) (utcnow : string)
    (watch_remnants : list Watch)
    (campaign_id market_token warehouse_id : string) (srv : Srv)
    : option (UploadOutcome * Srv * list (list Stock)) :=
  match get_offer_ids get_product_list fuel campaign_id market_token srv with
  | None => None
  | Some (Err e, srv1) => Some (Raised e, srv1, [])
  | Some (Ok offer_ids, srv1) =>
      match create_stocks utcnow watch_remnants offer_ids warehouse_id with
      | (Err e, _) => Some (Raised e, srv1, [])
      | (Ok stocks, _) =>
          match divide stocks 2000 with
          | Err e => Some (Raised e, srv1, [])
          | Ok batches =>
              match for_each (λ some_stock,
                                update_stocks some_stock campaign_id market_token)
                      batches srv1 with
              | (Err e, srv2, sent) => Some (Raised e, srv2, sent)
              | (Ok _, srv2, sent) =>
                  match filter_has_count stocks with
                  | None => Some (RaisedIndexError, srv2, sent)
                  | Some not_empty => Some (Uploaded not_empty stocks, srv2, sent)
                  end
              end
          end
      end
  end.
End Uploads.

End Market.

(** ** Specification-level vocabulary *)

(** The code of a feed record as the reconciler reads it. *)
Definition code_of (watch : Watch) : string := py_str (dict_get watch "Код").

(** The first feed record that carries the code [id]. *)
Definition feed_record (F : list Watch) (id : string) : option Watch :=
  find (λ w, bool_decide (code_of w = id)) F.

(** The count the feed assigns to [id]: the normalized quantity of its
    record, and zero when the feed does not mention it. *)
Definition feed_quantity (F : list Watch) (id : string) : Res Z :=
  match feed_record F id with
  | Some w => normalized_stock w
  | None => Ok 0
  end.

Definition is_Ok {A} (r : Res A) : Prop := ∃ a, r = Ok a.

Global Arguments feed_record : simpl never.
Global Arguments code_of : simpl never.
Global Arguments normalized_stock : simpl never.

(** The Marketplace A entry that corresponds to a Marketplace B entry. *)
Definition to_market (warehouse_id date : string) (e : Seller.Stock)
    : Market.Stock :=
  Market.stock_entry (Seller.offer_id e) warehouse_id (Seller.stock e) date.

(** Feed records for the examples: a code with a quantity, and the feed of
    the end-to-end scenario. *)
Definition watch_of (code qty : string) : Watch :=
  <["Код" := PyStr code]> (<["Количество" := PyStr qty]> ∅).

Definition feed_AB : list Watch := [watch_of "A" ">10"; watch_of "B" "1"].

(** The part of a string before its first ['.']: the whole string when it
    has none. *)
Fixpoint before_first_dot (s : string) : string :=
  match s with
  | "" => ""
  | String c r =>
      if bool_decide (c = "."%char) then "" else String c (before_first_dot r)
  end.

Fixpoint string_forallb (p : ascii → bool) (s : string) : bool :=
  match s with
  | "" => true
  | String c r => p c && string_forallb p r
  end.

(** Every character is a digit; no character is a digit. *)
Definition all_digits (s : string) : bool := string_forallb is_digit s.
Definition no_digit (s : string) : bool :=
  string_forallb (λ c, negb (is_digit c)) s.

(** The number a string of digits denotes. *)
Definition digits_value (s : string) : Z :=
  fold_left (λ acc c, 10 * acc + Z.of_nat (default 0%nat (Ascii.is_nat c)))
    (list_ascii_of_string s) 0.

(** The price descriptor of a feed record, when it is a string. *)
Definition price_text (w : Watch) : string :=
  match dict_get w "Цена" with
  | PyStr p => p
  | _ => ""
  end.

(** A feed record is matched when the identifier list holds its code. *)
Definition matched (S : list string) (w : Watch) : Prop := code_of w ∈ S.

Global Instance matched_dec S w : Decision (matched S w).
Proof. unfold matched. apply _. Defined.

(** The entry market.py's [create_prices] builds from a record whose price
    descriptor has a digit before its first ['.']. *)
Definition market_price_entry (w : Watch) : Market.Price :=
  {| Market.id := code_of w;
     Market.price :=
       {| Market.value := digits_value (price_conversion (price_text w));
          Market.currencyId := "RUR" |} |}.

(** A matched record whose price descriptor has no digit before its first
    ['.']. *)
Definition digitless_price (S : list string) (w : Watch) : Prop :=
  matched S w ∧ no_digit (before_first_dot (price_text w)) = true.

(** A feed record with a code and a price, and one with all three keys. *)
Definition watch_priced (code price : string) : Watch :=
  <["Код" := PyStr code]> (<["Цена" := PyStr price]> ∅).

Definition watch_full (code qty price : string) : Watch :=
  <["Код" := PyStr code]>
    (<["Количество" := PyStr qty]> (<["Цена" := PyStr price]> ∅)).

(** What one reconciliation run finds when it starts: the reading of the
    clock and the freshly resolved identifier list. *)
Record Run : Type := { run_clock : string; run_offer_ids : list string }.

(** The four output lists of a run. *)
Definition seller_outputs (F : list Watch) (r : Run)
    : Res (list Seller.Stock) * Res (list Seller.Price) :=
  ((Seller.create_stocks F (run_offer_ids r)).1,
   (Seller.create_prices F (run_offer_ids r)).1).

Definition market_outputs (F : list Watch) (warehouse_id : string) (r : Run)
    : Res (list Market.Stock) * Res (list Market.Price) :=
  ((Market.create_stocks (run_clock r) F (run_offer_ids r) warehouse_id).1,
   (Market.create_prices F (run_offer_ids r)).1).

(** A stock entry of market.py with its time stamps replaced. *)
Definition with_date (date : string) (e : Market.Stock) : Market.Stock :=
  {| Market.sku := Market.sku e;
     Market.warehouseId := Market.warehouseId e;
     Market.stock_items :=
       (λ it, {| Market.count := Market.count it;
                 Market.type := Market.type it;
                 Market.updatedAt := date |}) <$> Market.stock_items e |}.

(** The chunk of [lst] that starts at position [k * N]. *)
Definition chunk {A} (lst : list A) (N k : nat) : list A :=
  take N (drop (k * N) lst).

(** The pages a run of [get_offer_ids] receives.  [seller_pages last_id n
    srv pages srv'] holds when, starting with the cursor [last_id], [n]
    items accumulated and the store [srv], successive calls of the list
    endpoint answer with [pages], each call made with the cursor of the
    answer before, the last answer is the first one whose [total] equals the
    number of accumulated items, and the store ends as [srv']. *)
Section Pages.
Context {Srv : Type}.

Variable seller_list :
  string → string → string → Srv → Res Seller.ProductPage * Srv.
Variable market_list :
  option string → string → string → Srv → Res Market.OfferPage * Srv.
Variables id token : string.

Inductive seller_pages :
    string → nat → Srv → list Seller.ProductPage → Srv → Prop :=
  | seller_pages_last last_id n srv page srv' :
      seller_list last_id id token srv = (Ok page, srv') →
      Seller.r_total page = Z.of_nat (n + length (Seller.r_items page)) →
      seller_pages last_id n srv [page] srv'
  | seller_pages_next last_id n srv page srv' pages srv'' :
      seller_list last_id id token srv = (Ok page, srv') →
      Seller.r_total page ≠ Z.of_nat (n + length (Seller.r_items page)) →
      seller_pages (Seller.r_last_id page)
        (n + length (Seller.r_items page)) srv' pages srv'' →
      seller_pages last_id n srv (page :: pages) srv''.

(** For market.py the last answer is the first one whose
    [nextPageToken] is absent or empty. *)
Inductive market_pages :
    option string → Srv → list Market.OfferPage → Srv → Prop :=
  | market_pages_last page srv answer srv' :
      market_list page id token srv = (Ok answer, srv') →
      Market.py_not (Market.nextPageToken (Market.paging answer)) = true →
      market_pages page srv [answer] srv'
  | market_pages_next page srv answer srv' answers srv'' :
      market_list page id token srv = (Ok answer, srv') →
      Market.py_not (Market.nextPageToken (Market.paging answer)) = false →
      market_pages (Market.nextPageToken (Market.paging answer))
        srv' answers srv'' →
      market_pages page srv (answer :: answers) srv''.
End Pages.

(** A paginated store for the examples: the answer to a cursor depends on
    the cursor alone. *)
Definition seller_two_pages (last_id _ _ : string) (srv : unit)
    : Res Seller.ProductPage * unit :=
  if bool_decide (last_id = "") then
    (Ok {| Seller.r_items := [ {| Seller.product_offer_id := "A" |};
                               {| Seller.product_offer_id := "B" |} ];
           Seller.r_total := 3;
           Seller.r_last_id := "p2" |}, srv)
  else
    (Ok {| Seller.r_items := [ {| Seller.product_offer_id := "C" |} ];
           Seller.r_total := 3;
           Seller.r_last_id := "" |}, srv).

Definition market_two_pages (page : option string) (_ _ : string) (srv : unit)
    : Res Market.OfferPage * unit :=
  if bool_decide (page = Some "") then
    (Ok {| Market.offerMappingEntries :=
             [ {| Market.offer := {| Market.shopSku := "A" |} |};
               {| Market.offer := {| Market.shopSku := "B" |} |} ];
           Market.paging := {| Market.nextPageToken := Some "p2" |} |}, srv)
  else
    (Ok {| Market.offerMappingEntries :=
             [ {| Market.offer := {| Market.shopSku := "C" |} |} ];
           Market.paging := {| Market.nextPageToken := None |} |}, srv).

(** The entry seller.py's [create_prices] builds from a record whose price
    descriptor is a string. *)
Definition seller_price_entry (w : Watch) : Seller.Price :=
  {| Seller.auto_action_enabled := "UNKNOWN";
     Seller.currency_code := "RUB";
     Seller.price_offer_id := code_of w;
     Seller.old_price := "0";
     Seller.price := price_conversion (price_text w) |}.

(** A matched record whose price is not a string: the key is missing or
    holds a number. *)
Definition stringless_price (S : list string) (w : Watch) : Prop :=
  matched S w ∧ ∀ p, dict_get w "Цена" ≠ PyStr p.

(** A price entry of market.py and one of seller.py that say the same. *)
Definition same_price (m : Market.Price) (s : Seller.Price) : Prop :=
  Market.id m = Seller.price_offer_id s ∧
  py_int_str (Seller.price s) = Ok (Market.value (Market.price m)) ∧
  Market.currencyId (Market.price m) = "RUR".

(** No character is a ['.']. *)
Definition dot_free (s : string) : bool :=
  string_forallb (λ c, negb (bool_decide (c = "."%char))) s.

(** The answers of the list endpoint that do not end the loop of
    [get_offer_ids].  [seller_pages_open last_id n srv pages last_id' n'
    srv'] holds when, starting with the cursor [last_id], [n] items
    accumulated and the store [srv], successive calls answer with [pages],
    none of which carries the termination signal, and leave the loop with the
    cursor [last_id'], [n'] items and the store [srv']. *)
Section OpenPages.
Context {Srv : Type}.

Variable seller_list :
  string → string → string → Srv → Res Seller.ProductPage * Srv.
Variable market_list :
  option string → string → string → Srv → Res Market.OfferPage * Srv.
Variables id token : string.

Inductive seller_pages_open :
    string → nat → Srv → list Seller.ProductPage → string → nat → Srv → Prop :=
  | seller_open_nil last_id n srv :
      seller_pages_open last_id n srv [] last_id n srv
  | seller_open_cons last_id n srv page srv1 pages last_id' n' srv' :
      seller_list last_id id token srv = (Ok page, srv1) →
      Seller.r_total page ≠ Z.of_nat (n + length (Seller.r_items page)) →
      seller_pages_open (Seller.r_last_id page)
        (n + length (Seller.r_items page)) srv1 pages last_id' n' srv' →
      seller_pages_open last_id n srv (page :: pages) last_id' n' srv'.

Inductive market_pages_open :
    option string → Srv → list Market.OfferPage → option string → Srv → Prop :=
  | market_open_nil page srv : market_pages_open page srv [] page srv
  | market_open_cons page srv answer srv1 answers page' srv' :
      market_list page id token srv = (Ok answer, srv1) →
      Market.py_not (Market.nextPageToken (Market.paging answer)) = false →
      market_pages_open (Market.nextPageToken (Market.paging answer))
        srv1 answers page' srv' →
      market_pages_open page srv (answer :: answers) page' srv'.
End OpenPages.

(** Stores for the examples.  The first answers one page and then fails;
    the second hands out two items per page and reports a total of three;
    the third always names a next page.  Each counts the calls it gets. *)
Definition seller_fails_on_second_page (last_id _ _ : string) (calls : nat)
    : Res Seller.ProductPage * nat :=
  if bool_decide (last_id = "") then
    (Ok {| Seller.r_items := [ {| Seller.product_offer_id := "A" |} ];
           Seller.r_total := 2;
           Seller.r_last_id := "p2" |}, S calls)
  else (Err HTTPError, S calls).

Definition seller_overshoots (_ _ _ : string) (calls : nat)
    : Res Seller.ProductPage * nat :=
  (Ok {| Seller.r_items := [ {| Seller.product_offer_id := "A" |};
                             {| Seller.product_offer_id := "B" |} ];
         Seller.r_total := 3;
         Seller.r_last_id := "next" |}, S calls).

Definition market_always_next (_ : option string) (_ _ : string) (calls : nat)
    : Res Market.OfferPage * nat :=
  (Ok {| Market.offerMappingEntries :=
           [ {| Market.offer := {| Market.shopSku := "A" |} |} ];
         Market.paging := {| Market.nextPageToken := Some "next" |} |},
   S calls).

Definition market_fails_at_once (_ : option string) (_ _ : string) (calls : nat)
    : Res Market.OfferPage * nat :=
  (Err HTTPError, S calls).

(** Update endpoints for the examples: one accepts every batch, one
    rejects every batch; and a feed download that delivers the feed of the
    end-to-end scenario, priced. *)
Definition accept_batch {X : Type} (_ : list X) (_ _ : string) (srv : unit)
    : Res unit * unit := (Ok (), srv).

Definition reject_batch {X : Type} (_ : list X) (_ _ : string) (srv : unit)
    : Res unit * unit := (Err HTTPError, srv).

Definition feed_AB_priced : list Watch :=
  [watch_full "A" ">10" "5'990.00 руб."; watch_full "B" "1" "100"].

Definition download_AB_priced (srv : unit) : Res (list Watch) * unit :=
  (Ok feed_AB_priced, srv).

(** ** Worked examples *)

Example price_doc : price_conversion "5'990.00 руб." = "5990".
Proof. reflexivity. Qed.

Example price_doc_misuse : price_conversion "abc123" = "123".
Proof. reflexivity. Qed.

Example divide_doc :
  divide [1; 2; 3; 4; 5; 6] 2 = Ok [[1; 2]; [3; 4]; [5; 6]].
Proof. reflexivity. Qed.

Example create_stocks_doc :
  Seller.create_stocks [watch_of "123" "5"; watch_of "456" ">10"]
    ["123"; "456"; "789"]
  = (Ok [Seller.Build_Stock "123" 5; Seller.Build_Stock "456" 100;
         Seller.Build_Stock "789" 0], ["789"]).
Proof. vm_compute. reflexivity. Qed.

(** ** Lemmas on the builtins *)

Lemma py_in_true x l : py_in x l = true ↔ x ∈ l.
Proof. unfold py_in. apply bool_decide_eq_true. Qed.

Lemma py_in_false x l : py_in x l = false ↔ x ∉ l.
Proof. unfold py_in. apply bool_decide_eq_false. Qed.

Lemma py_remove_in x l : x ∈ l → ∃ l', py_remove x l = Ok l'.
Proof.
  induction l as [|y l IH]; intros Hin.
  - by apply elem_of_nil in Hin.
  - simpl. case_bool_decide as Hy; [by eexists|].
    apply elem_of_cons in Hin as [->|Hin]; [done|].
    destruct (IH Hin) as [l' ->]. by eexists.
Qed.

Lemma py_remove_perm x l l' : py_remove x l = Ok l' → l ≡ₚ x :: l'.
Proof.
  revert l'. induction l as [|y l IH]; intros l' Hrm; simpl in Hrm; [done|].
  case_bool_decide as Hy.
  - by simplify_eq.
  - destruct (py_remove x l) as [l1|] eqn:E; simplify_eq/=.
    rewrite (IH _ eq_refl). apply Permutation_swap.
Qed.

Lemma py_remove_sublist x l l' : py_remove x l = Ok l' → sublist l' l.
Proof.
  revert l'. induction l as [|y l IH]; intros l' Hrm; simpl in Hrm; [done|].
  case_bool_decide as Hy.
  - simplify_eq. by apply sublist_cons.
  - destruct (py_remove x l) as [l1|] eqn:E; simplify_eq/=.
    apply sublist_skip. by apply IH.
Qed.

Lemma filter_id {A} (P : A → Prop) `{!∀ x, Decision (P x)} (l : list A) :
  Forall P l → filter P l = l.
Proof.
  induction 1 as [|x l Hx _ IH]; [done|].
  by rewrite filter_cons_True, IH.
Qed.

Lemma py_remove_filter x l l' :
  NoDup l → py_remove x l = Ok l' → l' = filter (λ y, y ≠ x) l.
Proof.
  revert l'. induction l as [|y l IH]; intros l' Hnd Hrm; simpl in Hrm; [done|].
  apply NoDup_cons in Hnd as [Hy Hnd].
  case_bool_decide as Hyx.
  - simplify_eq. rewrite filter_cons_False by naive_solver.
    symmetry. apply filter_id, Forall_forall. set_solver.
  - destruct (py_remove x l) as [l1|] eqn:E; simplify_eq/=.
    rewrite filter_cons_True by done. f_equal. by apply IH.
Qed.

(** ** The matching loop of seller.py *)

Lemma res_map_compose {A B C} (f : A → B) (g : B → C) (r : Res A) :
  res_map g (res_map f r) = res_map (g ∘ f) r.
Proof. by destruct r. Qed.

Lemma res_map_ext {A B} (f g : A → B) (r : Res A) :
  (∀ a, f a = g a) → res_map f r = res_map g r.
Proof. intros Hfg. destruct r; simpl; [by rewrite Hfg|done]. Qed.

(** The loop appends to [stocks] and never reads it. *)
Lemma seller_stocks_loop_acc F acc S :
  Seller.stocks_loop F acc S =
  (res_map (app acc) (Seller.stocks_loop F [] S).1, (Seller.stocks_loop F [] S).2).
Proof.
  revert acc S. induction F as [|w F IH]; intros acc S; simpl.
  - by rewrite app_nil_r.
  - destruct (py_in _ S); [|apply IH].
    destruct (normalized_stock w) as [n|e]; [|done].
    destruct (py_remove _ S) as [S1|e]; [|done].
    rewrite (IH (acc ++ _)), (IH [_]). simpl.
    rewrite res_map_compose. f_equal. apply res_map_ext.
    intros m. simpl. by rewrite <-app_assoc.
Qed.

(** One iteration, with the accumulator factored out. *)
Lemma seller_stocks_loop_cons w F S :
  Seller.stocks_loop (w :: F) [] S =
  if py_in (code_of w) S then
    match normalized_stock w with
    | Err e => (Err e, S)
    | Ok n =>
        match py_remove (code_of w) S with
        | Err e => (Err e, S)
        | Ok S1 =>
            (res_map (cons {| Seller.offer_id := code_of w; Seller.stock := n |})
               (Seller.stocks_loop F [] S1).1,
             (Seller.stocks_loop F [] S1).2)
        end
    end
  else Seller.stocks_loop F [] S.
Proof.
  simpl. fold (code_of w). destruct (py_in _ S); [|done].
  destruct (normalized_stock w) as [n|e]; [|done].
  destruct (py_remove _ S) as [S1|e]; [|done].
  by rewrite seller_stocks_loop_acc.
Qed.

(** What a run of the loop that does not raise leaves behind: the matched
    entries follow the feed, the left-over identifiers keep their order, and
    together they are the identifiers the run started with. *)
Lemma seller_stocks_loop_inv F S m S' :
  Seller.stocks_loop F [] S = (Ok m, S') →
  sublist (Seller.offer_id <$> m) (code_of <$> F) ∧
  sublist S' S ∧
  (Seller.offer_id <$> m) ++ S' ≡ₚ S.
Proof.
  revert S m S'. induction F as [|w F IH]; intros S m S' Hrun.
  - simpl in Hrun. by simplify_eq.
  - rewrite seller_stocks_loop_cons in Hrun.
    destruct (py_in _ S) eqn:Hin.
    + destruct (normalized_stock w) as [n|e]; [|done].
      destruct (py_remove _ S) as [S1|e] eqn:Hrm; [|done].
      destruct (Seller.stocks_loop F [] S1) as [[m1|e] S2] eqn:Hrest;
        simplify_eq/=.
      destruct (IH _ _ _ Hrest) as (Hm & HS & Hp).
      split_and!.
      * by apply sublist_skip.
      * etrans; [done|]. by eapply py_remove_sublist.
      * rewrite (py_remove_perm _ _ _ Hrm). by constructor.
    + destruct (IH _ _ _ Hrun) as (Hm & HS & Hp).
      split_and!; [by apply sublist_cons|done..].
Qed.

Lemma filter_ext_in {A} (P Q : A → Prop)
    `{!∀ x, Decision (P x)} `{!∀ x, Decision (Q x)} (l : list A) :
  (∀ x, x ∈ l → P x ↔ Q x) → filter P l = filter Q l.
Proof.
  induction l as [|x l IH]; intros HPQ; [done|].
  rewrite !filter_cons.
  rewrite IH by (intros y Hy; apply HPQ; by right).
  destruct (decide (P x)) as [HP|HP], (decide (Q x)) as [HQ|HQ]; try done;
    exfalso; apply (HPQ x) in HP || apply (HPQ x) in HQ; try done; by left.
Qed.

Lemma feed_record_None F id : feed_record F id = None ↔ id ∉ code_of <$> F.
Proof.
  unfold feed_record. induction F as [|w F IH]; simpl.
  - split; [intros _; apply not_elem_of_nil|done].
  - case_bool_decide as Hw.
    + split; [done|]. intros Hn. exfalso. apply Hn. subst. by left.
    + rewrite IH, not_elem_of_cons. intuition congruence.
Qed.

Lemma feed_record_cons_ne w F id :
  code_of w ≠ id → feed_record (w :: F) id = feed_record F id.
Proof. intros Hne. unfold feed_record. simpl. by rewrite bool_decide_eq_false_2. Qed.

Lemma feed_record_cons_eq w F : feed_record (w :: F) (code_of w) = Some w.
Proof. unfold feed_record. simpl. by rewrite bool_decide_eq_true_2. Qed.

(** With a duplicate-free identifier list, what is left are the
    identifiers no feed record carries, untouched and in place. *)
Lemma seller_stocks_loop_left F S m S' :
  NoDup S →
  Seller.stocks_loop F [] S = (Ok m, S') →
  S' = filter (λ id, id ∉ code_of <$> F) S.
Proof.
  revert S m S'. induction F as [|w F IH]; intros S m S' Hnd Hrun.
  - simpl in Hrun. simplify_eq. symmetry. apply filter_id, Forall_forall.
    intros x _. apply not_elem_of_nil.
  - rewrite seller_stocks_loop_cons in Hrun.
    destruct (py_in _ S) eqn:Hin.
    + destruct (normalized_stock w) as [n|e]; [|done].
      destruct (py_remove _ S) as [S1|e] eqn:Hrm; [|done].
      destruct (Seller.stocks_loop F [] S1) as [[m1|e] S2] eqn:Hrest;
        simplify_eq/=.
      pose proof (py_remove_filter _ _ _ Hnd Hrm) as ->.
      rewrite (IH _ _ _ (NoDup_filter _ _ Hnd) Hrest).
      rewrite list_filter_filter. apply filter_ext_in.
      intros x _. rewrite not_elem_of_cons. tauto.
    + apply py_in_false in Hin.
      rewrite (IH _ _ _ Hnd Hrun). apply filter_ext_in.
      intros x Hx. simpl. rewrite not_elem_of_cons.
      split; [|tauto]. intros Hn. split; [|done]. by intros ->.
Qed.

(** With a duplicate-free identifier list, every matched entry carries the
    normalized quantity of the first feed record with its code. *)
Lemma seller_stocks_loop_quantity F S m S' :
  NoDup S →
  Seller.stocks_loop F [] S = (Ok m, S') →
  ∀ e, e ∈ m →
    ∃ w, feed_record F (Seller.offer_id e) = Some w ∧
         normalized_stock w = Ok (Seller.stock e).
Proof.
  revert S m S'. induction F as [|w F IH]; intros S m S' Hnd Hrun e He.
  - simpl in Hrun. simplify_eq. by apply elem_of_nil in He.
  - rewrite seller_stocks_loop_cons in Hrun.
    destruct (py_in _ S) eqn:Hin.
    + destruct (normalized_stock w) as [n|err] eqn:Hn; [|done].
      destruct (py_remove _ S) as [S1|err] eqn:Hrm; [|done].
      destruct (Seller.stocks_loop F [] S1) as [[m1|err] S2] eqn:Hrest;
        simplify_eq/=.
      apply elem_of_cons in He as [->|He]; cbn [Seller.offer_id Seller.stock].
      * exists w. by rewrite feed_record_cons_eq.
      * pose proof (py_remove_filter _ _ _ Hnd Hrm) as ->.
        destruct (IH _ _ _ (NoDup_filter _ _ Hnd) Hrest e He) as (w' & Hw' & Hq).
        exists w'. split; [|done].
        rewrite feed_record_cons_ne; [done|].
        destruct (seller_stocks_loop_inv _ _ _ _ Hrest) as (_ & _ & Hp).
        assert (Seller.offer_id e ∈ filter (λ y, y ≠ code_of w) S) as Hmem.
        { rewrite <-Hp. apply elem_of_app. left. by apply list_elem_of_fmap_2. }
        apply list_elem_of_filter in Hmem as [Hne _]. done.
    + apply py_in_false in Hin.
      destruct (IH _ _ _ Hnd Hrun e He) as (w' & Hw' & Hq).
      exists w'. split; [|done].
      rewrite feed_record_cons_ne; [done|].
      destruct (seller_stocks_loop_inv _ _ _ _ Hrun) as (_ & _ & Hp).
      intros Heq. apply Hin. rewrite <-Hp, Heq.
      apply elem_of_app. left. by apply list_elem_of_fmap_2.
Qed.

(** The loop raises only where a matched record has a malformed quantity. *)
Lemma seller_stocks_loop_total F S :
  (∀ w, w ∈ F → code_of w ∈ S → is_Ok (normalized_stock w)) →
  ∃ m S', Seller.stocks_loop F [] S = (Ok m, S').
Proof.
  revert S. induction F as [|w F IH]; intros S Hq.
  - by eexists _, _.
  - rewrite seller_stocks_loop_cons.
    destruct (py_in _ S) eqn:Hin.
    + apply py_in_true in Hin.
      destruct (Hq w) as [n ->]; [by left|done|].
      destruct (py_remove_in _ _ Hin) as [S1 Hrm]. rewrite Hrm.
      destruct (IH S1) as (m & S' & ->); [|by eexists _, _].
      intros w' Hw' Hc. apply Hq; [by right|].
      rewrite (py_remove_perm _ _ _ Hrm). by right.
    + apply IH. intros w' Hw' Hc. apply Hq; [by right|done].
Qed.

(** ** market.py runs the same loop *)

Lemma market_stocks_loop_sim F wh d acc S :
  Market.stocks_loop F wh d (to_market wh d <$> acc) S =
  (res_map (fmap (to_market wh d)) (Seller.stocks_loop F acc S).1,
   (Seller.stocks_loop F acc S).2).
Proof.
  revert acc S. induction F as [|w F IH]; intros acc S; simpl; [done|].
  destruct (py_in _ S); [|apply IH].
  destruct (normalized_stock w) as [n|e]; [|done].
  destruct (py_remove _ S) as [S1|e]; [|done].
  rewrite <-IH. by rewrite fmap_app.
Qed.

Lemma market_create_stocks_sim d F S wh :
  Market.create_stocks d F S wh =
  (res_map (fmap (to_market wh d)) (Seller.create_stocks F S).1,
   (Seller.create_stocks F S).2).
Proof.
  unfold Market.create_stocks, Seller.create_stocks.
  rewrite (market_stocks_loop_sim F wh d []).
  destruct (Seller.stocks_loop F [] S) as [[m|e] S']; simpl; [|done].
  f_equal. f_equal. rewrite fmap_app. f_equal.
  rewrite <-list_fmap_compose. done.
Qed.

Lemma to_market_sku wh d (l : list Seller.Stock) :
  Market.sku <$> (to_market wh d <$> l) = Seller.offer_id <$> l.
Proof. rewrite <-list_fmap_compose. done. Qed.

(** ** Properties of [create_stocks] *)

Lemma seller_create_stocks_ok F S m S' :
  Seller.stocks_loop F [] S = (Ok m, S') →
  Seller.create_stocks F S =
  (Ok (m ++ ((λ id, {| Seller.offer_id := id; Seller.stock := 0 |}) <$> S')), S').
Proof. unfold Seller.create_stocks. by intros ->. Qed.

Lemma fallback_ids (l : list string) :
  Seller.offer_id <$> ((λ id, {| Seller.offer_id := id; Seller.stock := 0 |}) <$> l) = l.
Proof. rewrite <-list_fmap_compose. apply list_fmap_id. Qed.

(** C1 for seller.py, in the form the two files share. *)
Lemma seller_create_stocks_exactly_once F S :
  NoDup S →
  (∀ w, w ∈ F → is_Ok (normalized_stock w)) →
  ∃ out S',
    Seller.create_stocks F S = (Ok out, S') ∧
    Seller.offer_id <$> out ≡ₚ S ∧
    NoDup (Seller.offer_id <$> out) ∧
    ∀ e, e ∈ out → feed_quantity F (Seller.offer_id e) = Ok (Seller.stock e).
Proof.
  intros Hnd Hq.
  destruct (seller_stocks_loop_total F S) as (m & S' & Hrun); [by auto|].
  destruct (seller_stocks_loop_inv _ _ _ _ Hrun) as (_ & _ & Hp).
  exists (m ++ ((λ id, {| Seller.offer_id := id; Seller.stock := 0 |}) <$> S')), S'.
  assert (Seller.offer_id <$>
            m ++ ((λ id, {| Seller.offer_id := id; Seller.stock := 0 |}) <$> S')
          ≡ₚ S) as Hperm.
  { by rewrite fmap_app, fallback_ids. }
  split_and!.
  - by apply seller_create_stocks_ok.
  - done.
  - by rewrite Hperm.
  - intros e He. unfold feed_quantity. apply elem_of_app in He as [He|He].
    + destruct (seller_stocks_loop_quantity _ _ _ _ Hnd Hrun e He) as (w & -> & Hw).
      done.
    + apply list_elem_of_fmap in He as (id & -> & Hid). simpl.
      rewrite (seller_stocks_loop_left _ _ _ _ Hnd Hrun) in Hid.
      apply list_elem_of_filter in Hid as [Hid _].
      apply feed_record_None in Hid. by rewrite Hid.
Qed.



Lemma market_create_stocks_ok d F S wh out S' :
  Market.create_stocks d F S wh = (Ok out, S') →
  ∃ out0, Seller.create_stocks F S = (Ok out0, S') ∧
          out = to_market wh d <$> out0.
Proof.
  rewrite market_create_stocks_sim.
  destruct (Seller.create_stocks F S) as [[out0|e] S0]; simpl; [|done].
  intros [= <- <-]. by exists out0.
Qed.

Lemma seller_create_stocks_inv F S out S' :
  Seller.create_stocks F S = (Ok out, S') →
  ∃ m, Seller.stocks_loop F [] S = (Ok m, S') ∧
       out = m ++ ((λ id, {| Seller.offer_id := id; Seller.stock := 0 |}) <$> S').
Proof.
  unfold Seller.create_stocks.
  destruct (Seller.stocks_loop F [] S) as [[m|e] S0]; [|done].
  intros [= <- <-]. by exists m.
Qed.

(** C9: [create_stocks] of either file writes to the caller's identifier
    list.  When the call returns, a duplicate-free list holds exactly the
    identifiers that no feed record carries: every matched identifier is
    gone, and the others are all there, in their places. *)
Theorem create_stocks_consumes_matched_identifiers
    (F : list Watch) (S : list string) (utcnow warehouse_id : string) :
  NoDup S →
  (∀ out S', Seller.create_stocks F S = (Ok out, S') →
     S' = filter (λ id, id ∉ code_of <$> F) S) ∧
  (∀ out S', Market.create_stocks utcnow F S warehouse_id = (Ok out, S') →
     S' = filter (λ id, id ∉ code_of <$> F) S).
Proof.
  intros Hnd.
  assert (∀ out S', Seller.create_stocks F S = (Ok out, S') →
            S' = filter (λ id, id ∉ code_of <$> F) S) as Hseller.
  { intros out S' (m & Hrun & _)%seller_create_stocks_inv.
    by eapply seller_stocks_loop_left. }
  split; [done|].
  intros out S' (out0 & Hrun & _)%market_create_stocks_ok. by eapply Hseller.
Qed.

Lemma create_stocks_consumes_matched_identifiers_witness :
  ["C"] = filter (λ id, id ∉ code_of <$> feed_AB) ["A"; "B"; "C"].
Proof.
  eapply (proj1 (create_stocks_consumes_matched_identifiers
                   feed_AB ["A"; "B"; "C"] "2024-01-01T00:00:00Z" "w1" _)).
  vm_compute. reflexivity.
  Unshelve.
  apply (bool_decide_unpack (NoDup ["A"; "B"; "C"])). vm_compute. exact I.
Defined.

(** In [main] of seller.py the list [create_stocks] has written to is the
    one [create_prices] then receives: no feed record matches what is left
    of a duplicate-free list, so no price entry is built. *)
Remark create_prices_after_create_stocks F S out S' :
  NoDup S →
  Seller.create_stocks F S = (Ok out, S') →
  Seller.create_prices F S' = (Ok [], S').
Proof.
  intros Hnd (m & Hrun & _)%seller_create_stocks_inv.
  pose proof (seller_stocks_loop_left _ _ _ _ Hnd Hrun) as HS'.
  unfold Seller.create_prices. f_equal.
  assert (∀ w, w ∈ F → code_of w ∉ S') as Hout.
  { intros w Hw. rewrite HS'. intros [Hn _]%list_elem_of_filter.
    apply Hn. by apply list_elem_of_fmap_2. }
  clear HS' Hrun. generalize (@nil Seller.Price).
  induction F as [|w F IH]; intros acc; [done|].
  cbn [Seller.prices_loop]. fold (code_of w).
  rewrite (proj2 (py_in_false _ _)) by (apply Hout; by left).
  apply IH. intros w' Hw'. apply Hout. by right.
Qed.



(** ** The quantity rule *)

Lemma watch_of_code code q : dict_get (watch_of code q) "Код" = PyStr code.
Proof. unfold dict_get, watch_of. by rewrite lookup_insert_eq. Qed.

Lemma watch_of_quantity code q :
  dict_get (watch_of code q) "Количество" = PyStr q.
Proof.
  unfold dict_get, watch_of.
  rewrite lookup_insert_ne by done. by rewrite lookup_insert_eq.
Qed.

Lemma normalized_stock_watch_of code q :
  normalized_stock (watch_of code q) =
  if bool_decide (q = ">10") then Ok 100
  else if bool_decide (q = "1") then Ok 0
  else py_int_str q.
Proof. unfold normalized_stock. by rewrite watch_of_quantity. Qed.

Lemma create_stocks_single code q n utcnow wh :
  normalized_stock (watch_of code q) = Ok n →
  Seller.create_stocks [watch_of code q] [code] =
    (Ok [ {| Seller.offer_id := code; Seller.stock := n |} ], []) ∧
  Market.create_stocks utcnow [watch_of code q] [code] wh =
    (Ok [ Market.stock_entry code wh n utcnow ], []).
Proof.
  intros Hn.
  assert (Seller.create_stocks [watch_of code q] [code] =
            (Ok [ {| Seller.offer_id := code; Seller.stock := n |} ], [])) as Hs.
  { unfold Seller.create_stocks. cbn [Seller.stocks_loop].
    rewrite watch_of_code. cbn [py_str].
    unfold py_in. rewrite bool_decide_eq_true_2 by (by left).
    rewrite Hn. cbn [py_remove]. by rewrite bool_decide_eq_true_2. }
  split; [done|]. by rewrite market_create_stocks_sim, Hs.
Qed.



(** ** [price_conversion] *)

Lemma py_split_head s :
  ∃ rest, py_split "."%char s = before_first_dot s :: rest.
Proof.
  induction s as [|c s [rest IH]]; simpl; [by eexists|].
  case_bool_decide; [by eexists|]. rewrite IH. by eexists.
Qed.

Lemma price_conversion_before_first_dot s :
  price_conversion s = re_sub_non_digits (before_first_dot s).
Proof.
  unfold price_conversion. by destruct (py_split_head s) as [rest ->].
Qed.

(** [before_first_dot] is the dot-free prefix that ends at the first dot or
    at the end of the string. *)
Lemma before_first_dot_spec s :
  string_forallb (λ c, negb (bool_decide (c = "."%char))) (before_first_dot s)
    = true ∧
  ∃ post, s = before_first_dot s +:+ post ∧
          (post = "" ∨ ∃ r, post = String "."%char r).
Proof.
  induction s as [|c s [IHd (post & IHs & IHp)]]; simpl.
  - split; [done|]. exists "". by split; [|left].
  - case_bool_decide as Hc; simpl.
    + split; [done|]. exists (String c s). split; [done|]. right. subst. by eexists.
    + rewrite bool_decide_eq_false_2, IHd by done. split; [done|].
      exists post. split; [|done].
      change (String c s = String c (before_first_dot s +:+ post)). by f_equal.
Qed.

Lemma re_sub_non_digits_filter s :
  list_ascii_of_string (re_sub_non_digits s) =
  filter (λ c, Is_true (is_digit c)) (list_ascii_of_string s).
Proof.
  induction s as [|c s IH]; simpl; [done|].
  rewrite filter_cons. destruct (is_digit c); simpl; by rewrite IH.
Qed.

Lemma re_sub_non_digits_all_digits s : all_digits (re_sub_non_digits s) = true.
Proof.
  unfold all_digits. induction s as [|c s IH]; simpl; [done|].
  destruct (is_digit c) eqn:Hc; simpl; [by rewrite Hc|done].
Qed.

Lemma re_sub_non_digits_empty s : re_sub_non_digits s = "" ↔ no_digit s = true.
Proof.
  unfold no_digit. induction s as [|c s IH]; simpl; [done|].
  destruct (is_digit c); simpl; [by split|done].
Qed.

(** C3, the example as the specification gives it fails: the text before the
    first ['.'] of ["1.999,50"] is ["1"]. *)
Lemma price_conversion_1999_counterexample :
  price_conversion "1.999,50" = "1" ∧
  ¬ (price_conversion "1.999,50" = "1999").
Proof. split; [reflexivity|]. vm_compute. discriminate. Qed.

(** C3, amended: [price_conversion] keeps the text before the first ['.'] of
    its input, drops the rest, and then removes every character that is not a
    digit; ["5'990.00 руб."] gives ["5990"], ["100"] gives ["100"], and
    ["1.999,50"] gives ["1"]. *)
Theorem price_conversion_rule (s : string) :
  price_conversion s = re_sub_non_digits (before_first_dot s) ∧
  list_ascii_of_string (price_conversion s) =
    filter (λ c, Is_true (is_digit c))
      (list_ascii_of_string (before_first_dot s)) ∧
  price_conversion "5'990.00 руб." = "5990" ∧
  price_conversion "100" = "100" ∧
  price_conversion "1.999,50" = "1".
Proof.
  split_and!; [apply price_conversion_before_first_dot| |reflexivity..].
  rewrite price_conversion_before_first_dot. apply re_sub_non_digits_filter.
Qed.

(** ** [int] of a string of digits *)

Lemma digit_not_space c : is_digit c = true → py_isspace c = false.
Proof. destruct c as [[] [] [] [] [] [] [] []]; done. Qed.

Lemma digit_not_sign c :
  is_digit c = true → c ≠ "-"%char ∧ c ≠ "+"%char.
Proof. destruct c as [[] [] [] [] [] [] [] []]; done. Qed.

Lemma lstrip_digits s : all_digits s = true → lstrip s = s.
Proof.
  destruct s as [|c s]; [done|]. unfold all_digits. simpl.
  intros [Hc _]%andb_true_iff. by rewrite digit_not_space.
Qed.

Lemma rstrip_digits s : all_digits s = true → rstrip s = s.
Proof.
  unfold all_digits. induction s as [|c s IH]; [done|]. simpl.
  intros [Hc Hs]%andb_true_iff. rewrite (IH Hs), digit_not_space by done.
  by destruct s.
Qed.

Lemma int_digits_digits s acc :
  all_digits s = true →
  int_digits acc true s =
  Some (fold_left (λ a c, 10 * a + Z.of_nat (default 0%nat (Ascii.is_nat c)))
          (list_ascii_of_string s) acc).
Proof.
  unfold all_digits. revert acc. induction s as [|c s IH]; intros acc; [done|].
  simpl. intros [Hc Hs]%andb_true_iff. unfold is_digit in Hc.
  destruct (Ascii.is_nat c) as [d|]; [|done]. simpl. by apply IH.
Qed.

(** [int] of a string of digits raises on the empty string and returns the
    denoted number otherwise. *)
Lemma py_int_str_digits s :
  all_digits s = true →
  py_int_str s = if bool_decide (s = "") then Err ValueError
                 else Ok (digits_value s).
Proof.
  intros Hs. unfold py_int_str, py_strip.
  rewrite (lstrip_digits s Hs), (rstrip_digits s Hs).
  destruct s as [|c s]; [done|].
  rewrite bool_decide_eq_false_2 by done.
  unfold all_digits in Hs. simpl in Hs. apply andb_true_iff in Hs as [Hc Hs].
  destruct (digit_not_sign c Hc) as [Hm Hp].
  assert (int_digits 0 false (String c s) = Some (digits_value (String c s)))
    as Hd.
  { cbn [int_digits]. unfold is_digit in Hc.
    destruct (Ascii.is_nat c) as [d|] eqn:Hn; [|done].
    rewrite int_digits_digits by done.
    unfold digits_value. simpl. by rewrite Hn. }
  destruct c as [[] [] [] [] [] [] [] []]; try done; by rewrite Hd.
Qed.

(** ** [create_prices] of market.py *)

Lemma price_text_str w p : dict_get w "Цена" = PyStr p → price_text w = p.
Proof. unfold price_text. by intros ->. Qed.

Lemma market_prices_loop_cases F S acc :
  (∀ w, w ∈ F → ∃ p, dict_get w "Цена" = PyStr p) →
  (Exists (digitless_price S) F ∧
   Market.prices_loop F acc S = Err ValueError) ∨
  (¬ Exists (digitless_price S) F ∧
   Market.prices_loop F acc S =
     Ok (acc ++ (market_price_entry <$> filter (matched S) F))).
Proof.
  revert acc. induction F as [|w F IH]; intros acc Hstr.
  - right. split; [by intros ?%Exists_nil|]. simpl. by rewrite app_nil_r.
  - cbn [Market.prices_loop]. fold (code_of w).
    assert (∀ w', w' ∈ F → ∃ p, dict_get w' "Цена" = PyStr p) as Hstr'.
    { intros w' Hw'. apply Hstr. by right. }
    destruct (py_in (code_of w) S) eqn:Hin.
    + apply py_in_true in Hin.
      destruct (Hstr w) as [p Hp]; [by left|].
      rewrite Hp. cbn [price_conversion_val].
      rewrite py_int_str_digits
        by (rewrite price_conversion_before_first_dot;
            apply re_sub_non_digits_all_digits).
      case_bool_decide as Hempty.
      * left. split; [|done]. apply Exists_cons_hd. split; [done|].
        rewrite (price_text_str _ _ Hp).
        apply re_sub_non_digits_empty.
        by rewrite <-price_conversion_before_first_dot.
      * assert (¬ digitless_price S w) as Hw.
        { intros [_ Hno]. apply Hempty.
          rewrite price_conversion_before_first_dot.
          apply re_sub_non_digits_empty.
          by rewrite <-(price_text_str _ _ Hp). }
        destruct (IH (acc ++ [market_price_entry w]) Hstr')
          as [[Hex Hrun]|[Hex Hrun]].
        -- left. split; [by apply Exists_cons_tl|].
           unfold market_price_entry in Hrun.
           by rewrite (price_text_str _ _ Hp) in Hrun.
        -- right. split; [by intros [?|?]%Exists_cons|].
           unfold market_price_entry in Hrun at 1.
           rewrite (price_text_str _ _ Hp) in Hrun. rewrite Hrun.
           rewrite filter_cons_True by done.
           by rewrite fmap_cons, <-app_assoc.
    + apply py_in_false in Hin.
      assert (¬ digitless_price S w) as Hw by (by intros [? _]).
      destruct (IH acc Hstr') as [[Hex Hrun]|[Hex Hrun]].
      * left. split; [by apply Exists_cons_tl|done].
      * right. split; [by intros [?|?]%Exists_cons|].
        by rewrite filter_cons_False.
Qed.



(** ** [create_prices] does not consume identifiers *)

Lemma seller_prices_loop_ids F S acc out :
  Seller.prices_loop F acc S = Ok out →
  Seller.price_offer_id <$> out =
  (Seller.price_offer_id <$> acc) ++ filter (.∈ S) (code_of <$> F).
Proof.
  revert acc. induction F as [|w F IH]; intros acc Hrun.
  - simpl in Hrun. simplify_eq. by rewrite app_nil_r.
  - cbn [Seller.prices_loop] in Hrun. fold (code_of w) in Hrun.
    rewrite fmap_cons, filter_cons.
    destruct (py_in (code_of w) S) eqn:Hin.
    + apply py_in_true in Hin. rewrite decide_True by done.
      destruct (price_conversion_val _) as [p|e]; [|done].
      rewrite (IH _ Hrun), fmap_app, <-app_assoc. done.
    + apply py_in_false in Hin. rewrite decide_False by done. by apply IH.
Qed.

Lemma market_prices_loop_ids F S acc out :
  Market.prices_loop F acc S = Ok out →
  Market.id <$> out = (Market.id <$> acc) ++ filter (.∈ S) (code_of <$> F).
Proof.
  revert acc. induction F as [|w F IH]; intros acc Hrun.
  - simpl in Hrun. simplify_eq. by rewrite app_nil_r.
  - cbn [Market.prices_loop] in Hrun. fold (code_of w) in Hrun.
    rewrite fmap_cons, filter_cons.
    destruct (py_in (code_of w) S) eqn:Hin.
    + apply py_in_true in Hin. rewrite decide_True by done.
      destruct (price_conversion_val _) as [p|e]; [|done].
      destruct (py_int_str p) as [v|e]; [|done].
      rewrite (IH _ Hrun), fmap_app, <-app_assoc. done.
    + apply py_in_false in Hin. rewrite decide_False by done. by apply IH.
Qed.

Lemma seller_prices_loop_total F S acc :
  (∀ w, w ∈ F → matched S w → ∃ p, dict_get w "Цена" = PyStr p) →
  ∃ out, Seller.prices_loop F acc S = Ok out.
Proof.
  revert acc. induction F as [|w F IH]; intros acc Hstr; [by eexists|].
  cbn [Seller.prices_loop]. fold (code_of w).
  assert (∀ w', w' ∈ F → matched S w' → ∃ p, dict_get w' "Цена" = PyStr p)
    as Hstr' by (intros w' Hw'; apply Hstr; by right).
  destruct (py_in (code_of w) S) eqn:Hin; [|by apply IH].
  apply py_in_true in Hin. destruct (Hstr w) as [p ->]; [by left|done|].
  by apply IH.
Qed.

(** C4, as the specification states it, fails: with the feed record [A] and
    the identifiers [A], [C], [create_stocks] emits [A] and the fall-back
    [C] and leaves the list as [C], while [create_prices] of either file
    emits [A] alone and leaves the list as it was. *)
Lemma create_prices_same_algorithm_counterexample :
  let F := [watch_full "A" "5" "100"] in
  let S := ["A"; "C"] in
  Seller.offer_id <$>
    match (Seller.create_stocks F S).1 with Ok out => out | Err _ => [] end
    = ["A"; "C"] ∧
  (Seller.create_stocks F S).2 = ["C"] ∧
  Seller.price_offer_id <$>
    match (Seller.create_prices F S).1 with Ok out => out | Err _ => [] end
    = ["A"] ∧
  (Seller.create_prices F S).2 = ["A"; "C"] ∧
  Market.id <$>
    match (Market.create_prices F S).1 with Ok out => out | Err _ => [] end
    = ["A"] ∧
  (Market.create_prices F S).2 = ["A"; "C"] ∧
  ¬ (∀ (F : list Watch) (S : list string) pout S1 sout S2,
       Seller.create_prices F S = (Ok pout, S1) →
       Seller.create_stocks F S = (Ok sout, S2) →
       Seller.price_offer_id <$> pout = Seller.offer_id <$> sout ∧ S1 = S2).
Proof.
  split_and!; try (vm_compute; reflexivity).
  intros Hclaim.
  destruct (Hclaim [watch_full "A" "5" "100"] ["A"; "C"] _ _ _ _
              eq_refl eq_refl) as [Hids _].
  vm_compute in Hids. discriminate.
Qed.

(** C4, amended: [create_prices] of either file emits one entry for each
    feed record whose code is in the identifier list, in the order of the
    feed; it removes nothing from the identifier list and emits no entry
    for the identifiers the feed does not carry.  The seller.py function
    returns whenever the matched records have a string as price. *)
Theorem create_prices_matching (F : list Watch) (S : list string) :
  (∀ out S', Seller.create_prices F S = (Ok out, S') →
     Seller.price_offer_id <$> out = filter (.∈ S) (code_of <$> F) ∧ S' = S) ∧
  (∀ out S', Market.create_prices F S = (Ok out, S') →
     Market.id <$> out = filter (.∈ S) (code_of <$> F) ∧ S' = S) ∧
  ((∀ w, w ∈ F → matched S w → ∃ p, dict_get w "Цена" = PyStr p) →
     ∃ out, Seller.create_prices F S = (Ok out, S)).
Proof.
  unfold Seller.create_prices, Market.create_prices. split_and!.
  - intros out S' [= Hrun <-]. split; [|done].
    by rewrite (seller_prices_loop_ids _ _ _ _ Hrun).
  - intros out S' [= Hrun <-]. split; [|done].
    by rewrite (market_prices_loop_ids _ _ _ _ Hrun).
  - intros Hstr. destruct (seller_prices_loop_total F S [] Hstr) as [out ->].
    by eexists.
Qed.

Lemma create_prices_matching_witness :
  (["A"; "A"] =
     filter (.∈ ["A"; "C"])
       (code_of <$> [watch_priced "A" "100"; watch_priced "B" "7";
                     watch_priced "A" "250.50"]) ∧
   ["A"; "C"] = ["A"; "C"]) ∧
  ∃ out, Seller.create_prices [watch_priced "A" "100"] ["A"; "C"]
         = (Ok out, ["A"; "C"]).
Proof.
  split.
  - eapply (proj1 (proj2 (create_prices_matching
              [watch_priced "A" "100"; watch_priced "B" "7";
               watch_priced "A" "250.50"] ["A"; "C"]))
              [ {| Market.id := "A";
                   Market.price := {| Market.value := 100;
                                      Market.currencyId := "RUR" |} |};
                {| Market.id := "A";
                   Market.price := {| Market.value := 250;
                                      Market.currencyId := "RUR" |} |} ]).
    vm_compute. reflexivity.
  - apply (proj2 (proj2 (create_prices_matching
             [watch_priced "A" "100"] ["A"; "C"]))).
    intros w Hw _. apply list_elem_of_singleton in Hw as ->. by eexists.
Defined.

(** ** Running the reconciliation twice *)

Lemma with_date_to_market wh t1 t2 (e : Seller.Stock) :
  with_date t2 (to_market wh t1 e) = to_market wh t2 e.
Proof. done. Qed.

(** C5, as the specification states it, fails for the stock list of
    market.py: two runs that read the clock one second apart and resolve
    the same identifiers return different lists. *)
Lemma reconciliation_twice_counterexample :
  let r1 := {| run_clock := "2024-01-01T00:00:00Z"; run_offer_ids := ["A"] |} in
  let r2 := {| run_clock := "2024-01-01T00:00:01Z"; run_offer_ids := ["A"] |} in
  run_offer_ids r1 = run_offer_ids r2 ∧
  market_outputs [] "w1" r1 ≠ market_outputs [] "w1" r2 ∧
  ¬ (∀ F warehouse_id r1 r2,
       run_offer_ids r1 = run_offer_ids r2 →
       seller_outputs F r1 = seller_outputs F r2 ∧
       market_outputs F warehouse_id r1 = market_outputs F warehouse_id r2).
Proof.
  split_and!; [done|by vm_compute|].
  intros Hclaim.
  destruct (Hclaim []  "w1"
              {| run_clock := "2024-01-01T00:00:00Z"; run_offer_ids := ["A"] |}
              {| run_clock := "2024-01-01T00:00:01Z"; run_offer_ids := ["A"] |}
              eq_refl) as [_ Hm].
  vm_compute in Hm. discriminate.
Qed.

(** C5, amended: two runs that resolve the same identifier list return the
    same stock and price lists from seller.py and the same price list from
    market.py; the stock lists of market.py agree except for the
    [updatedAt] stamp of each entry, which is the clock reading of its run,
    and are the same list when both runs read the same clock value. *)
Theorem reconciliation_twice
    (F : list Watch) (warehouse_id : string) (r1 r2 : Run) :
  run_offer_ids r1 = run_offer_ids r2 →
  seller_outputs F r1 = seller_outputs F r2 ∧
  (market_outputs F warehouse_id r1).2 = (market_outputs F warehouse_id r2).2 ∧
  res_map (fmap (with_date (run_clock r2))) (market_outputs F warehouse_id r1).1
    = (market_outputs F warehouse_id r2).1 ∧
  (run_clock r1 = run_clock r2 →
     market_outputs F warehouse_id r1 = market_outputs F warehouse_id r2).
Proof.
  destruct r1 as [t1 S1], r2 as [t2 S2]. simpl. intros ->.
  unfold seller_outputs, market_outputs. simpl.
  split_and!; [done..| |by intros ->].
  rewrite !market_create_stocks_sim. simpl.
  destruct (Seller.create_stocks F S2).1 as [out|e]; simpl; [|done].
  f_equal. rewrite <-list_fmap_compose. done.
Qed.

Lemma reconciliation_twice_witness :
  let r1 := {| run_clock := "2024-01-01T00:00:00Z";
               run_offer_ids := ["A"; "B"; "C"] |} in
  let r2 := {| run_clock := "2024-01-01T00:00:01Z";
               run_offer_ids := ["A"; "B"; "C"] |} in
  seller_outputs feed_AB r1 = seller_outputs feed_AB r2 ∧
  (market_outputs feed_AB "w1" r1).2 = (market_outputs feed_AB "w1" r2).2 ∧
  res_map (fmap (with_date (run_clock r2))) (market_outputs feed_AB "w1" r1).1
    = (market_outputs feed_AB "w1" r2).1 ∧
  (run_clock r1 = run_clock r2 →
     market_outputs feed_AB "w1" r1 = market_outputs feed_AB "w1" r2).
Proof.
  intros r1 r2. apply (reconciliation_twice feed_AB "w1" r1 r2). reflexivity.
Defined.

(** ** [divide] *)

Section Divide.
Context {A : Type}.
Implicit Types (lst : list A) (n : Z) (N m k : nat).

Lemma concat_chunks lst N m :
  concat (chunk lst N <$> seq 0 m) = take (m * N) lst.
Proof.
  induction m as [|m IH]; [done|].
  rewrite seq_S, fmap_app, concat_app, IH. simpl.
  rewrite app_nil_r. unfold chunk. rewrite take_take_drop.
  f_equal. lia.
Qed.

(** The number of elements of [range(0, len, n)] for a positive [n]. *)
Lemma range_count (len n : Z) :
  0 < n → 0 ≤ len →
  let m := Z.to_nat (if (0 <? len)%Z then (len - 0 - 1) / n + 1 else 0) in
  len ≤ Z.of_nat m * n ∧ ∀ k, (k < m)%nat → Z.of_nat k * n < len.
Proof.
  intros Hn Hlen. destruct (0 <? len)%Z eqn:Hpos.
  - apply Z.ltb_lt in Hpos.
    pose proof (Z.div_mod (len - 0 - 1) n ltac:(lia)) as Hdm.
    pose proof (Z.mod_pos_bound (len - 0 - 1) n Hn) as Hmod.
    assert (0 ≤ (len - 0 - 1) / n) as Hq by (apply Z.div_pos; lia).
    simpl. split; [nia|]. intros k Hk. nia.
  - apply Z.ltb_ge in Hpos. simpl. split; [lia|]. intros k Hk. lia.
Qed.

Lemma divide_unfold lst n :
  0 < n →
  ∃ m, divide lst n = Ok (chunk lst (Z.to_nat n) <$> seq 0 m) ∧
       (length lst ≤ m * Z.to_nat n)%nat ∧
       ∀ k, (k < m)%nat → (k * Z.to_nat n < length lst)%nat.
Proof.
  intros Hn. unfold divide, py_range.
  rewrite (proj2 (Z.eqb_neq n 0)) by lia.
  rewrite (proj2 (Z.ltb_lt 0 n)) by done.
  destruct (range_count (Z.of_nat (length lst)) n Hn ltac:(lia)) as [Hge Hlt].
  set (m := Z.to_nat _) in *.
  exists m. split_and!.
  - simpl. f_equal. rewrite <-list_fmap_compose. apply list_fmap_ext.
    intros i k _. unfold chunk, py_slice. simpl. f_equal; [lia|].
    f_equal. lia.
  - nia.
  - intros k Hk. specialize (Hlt k Hk). nia.
Qed.
End Divide.

(** C7: for a positive [n], [divide lst n] yields the consecutive chunks of
    [lst] in order: joined together they are [lst], every chunk but the last
    has exactly [n] elements, and the last has between 1 and [n].  So
    [divide [1,2,3,4,5] 2] yields [[1,2],[3,4],[5]], and the empty list
    yields no chunk. *)
Theorem divide_consecutive_chunks {A : Type} (lst : list A) (n : Z) :
  0 < n →
  (∃ chunks,
     divide lst n = Ok chunks ∧
     concat chunks = lst ∧
     ∀ (i : nat) (c : list A), chunks !! i = Some c →
       (0 < length c ≤ Z.to_nat n)%nat ∧
       (S i < length chunks → length c = Z.to_nat n)%nat) ∧
  divide (@nil A) n = Ok [] ∧
  divide [1; 2; 3; 4; 5] 2 = Ok [[1; 2]; [3; 4]; [5]].
Proof.
  intros Hn. split_and!.
  - destruct (divide_unfold lst n Hn) as (m & -> & Hge & Hlt).
    eexists. split; [done|]. split.
    + rewrite concat_chunks. by apply take_ge.
    + intros i c Hc. rewrite list_lookup_fmap in Hc.
      destruct (seq 0 m !! i) as [k|] eqn:Hk; [|done].
      apply lookup_seq in Hk as [-> Hi]. simpl in Hc. simplify_eq.
      rewrite length_fmap, length_seq. unfold chunk.
      rewrite length_take, length_drop.
      pose proof (Hlt i Hi). split; [lia|].
      intros Hnext. pose proof (Hlt (S i) Hnext). lia.
  - destruct (divide_unfold (@nil A) n Hn) as (m & -> & _ & Hlt).
    destruct m as [|m]; [done|]. specialize (Hlt 0%nat ltac:(lia)).
    simpl in Hlt. lia.
  - reflexivity.
Qed.

Lemma divide_consecutive_chunks_witness :
  (∃ chunks,
     divide ["a"; "b"; "c"; "d"; "e"; "f"; "g"] 3 = Ok chunks ∧
     concat chunks = ["a"; "b"; "c"; "d"; "e"; "f"; "g"] ∧
     ∀ (i : nat) (c : list string), chunks !! i = Some c →
       (0 < length c ≤ Z.to_nat 3)%nat ∧
       (S i < length chunks → length c = Z.to_nat 3)%nat) ∧
  divide (@nil string) 3 = Ok [] ∧
  divide [1; 2; 3; 4; 5] 2 = Ok [[1; 2]; [3; 4]; [5]].
Proof.
  apply (divide_consecutive_chunks ["a"; "b"; "c"; "d"; "e"; "f"; "g"] 3).
  lia.
Defined.

(** ** [get_offer_ids] *)

Section ResolverProperties.
Context {Srv : Type}.
Variable seller_list :
  string → string → string → Srv → Res Seller.ProductPage * Srv.
Variable market_list :
  option string → string → string → Srv → Res Market.OfferPage * Srv.
Variables id token : string.

Lemma seller_product_loop_complete last_id acc srv pages srv' fuel :
  seller_pages seller_list id token last_id (length acc) srv pages srv' →
  (length pages ≤ fuel)%nat →
  Seller.product_loop seller_list fuel id token last_id acc srv =
    Some (Ok (acc ++ concat (Seller.r_items <$> pages)), srv').
Proof.
  intros Hpages. remember (length acc) as n eqn:Hn.
  revert acc Hn fuel.
  induction Hpages as [last_id n srv page srv' Hcall Htotal
                      |last_id n srv page srv' pages srv'' Hcall Htotal _ IH];
    intros acc -> fuel Hfuel; simpl in Hfuel;
    (destruct fuel as [|fuel]; [lia|]); simpl; rewrite Hcall.
  - rewrite length_app, bool_decide_eq_true_2 by done.
    by rewrite app_nil_r.
  - rewrite length_app, bool_decide_eq_false_2 by done.
    rewrite (IH (acc ++ Seller.r_items page)); [|by rewrite length_app|lia].
    by rewrite <-app_assoc.
Qed.

Lemma seller_product_loop_sound fuel last_id acc srv out srv' :
  Seller.product_loop seller_list fuel id token last_id acc srv =
    Some (Ok out, srv') →
  ∃ pages,
    seller_pages seller_list id token last_id (length acc) srv pages srv' ∧
    (length pages ≤ fuel)%nat ∧
    out = acc ++ concat (Seller.r_items <$> pages).
Proof.
  revert last_id acc srv. induction fuel as [|fuel IH];
    intros last_id acc srv Hrun; [done|].
  simpl in Hrun.
  destruct (seller_list last_id id token srv) as [[page|e] srv1] eqn:Hcall;
    [|done].
  rewrite length_app in Hrun. case_bool_decide as Htotal.
  - simplify_eq. exists [page]. split_and!.
    + by eapply seller_pages_last.
    + simpl. lia.
    + simpl. by rewrite app_nil_r.
  - destruct (IH _ _ _ Hrun) as (pages & Hpages & Hlen & ->).
    exists (page :: pages). split_and!.
    + eapply seller_pages_next; [done..|]. by rewrite <-length_app.
    + simpl. lia.
    + simpl. by rewrite <-app_assoc.
Qed.

Lemma market_product_loop_complete page acc srv answers srv' fuel :
  market_pages market_list id token page srv answers srv' →
  (length answers ≤ fuel)%nat →
  Market.product_loop market_list fuel id token page acc srv =
    Some (Ok (acc ++ concat (Market.offerMappingEntries <$> answers)), srv').
Proof.
  intros Hpages. revert acc fuel.
  induction Hpages as [page srv answer srv' Hcall Hlast
                      |page srv answer srv' answers srv'' Hcall Hlast _ IH];
    intros acc fuel Hfuel; simpl in Hfuel;
    (destruct fuel as [|fuel]; [lia|]); simpl; rewrite Hcall, Hlast.
  - by rewrite app_nil_r.
  - rewrite IH by lia. by rewrite <-app_assoc.
Qed.

Lemma market_product_loop_sound fuel page acc srv out srv' :
  Market.product_loop market_list fuel id token page acc srv =
    Some (Ok out, srv') →
  ∃ answers,
    market_pages market_list id token page srv answers srv' ∧
    (length answers ≤ fuel)%nat ∧
    out = acc ++ concat (Market.offerMappingEntries <$> answers).
Proof.
  revert page acc srv. induction fuel as [|fuel IH];
    intros page acc srv Hrun; [done|].
  simpl in Hrun.
  destruct (market_list page id token srv) as [[answer|e] srv1] eqn:Hcall;
    [|done].
  destruct (Market.py_not _) eqn:Hlast.
  - simplify_eq. exists [answer]. split_and!.
    + by eapply market_pages_last.
    + simpl. lia.
    + simpl. by rewrite app_nil_r.
  - destruct (IH _ _ _ Hrun) as (answers & Hpages & Hlen & ->).
    exists (answer :: answers). split_and!.
    + by eapply market_pages_next.
    + simpl. lia.
    + simpl. by rewrite <-app_assoc.
Qed.
End ResolverProperties.

(** C8: [get_offer_ids] calls the list endpoint again and again, each time
    with the cursor of the answer before, and accumulates the items of the
    answers, until the first answer that carries the termination signal: for
    seller.py a [total] equal to the number of accumulated items, for
    market.py an absent or empty [nextPageToken].  Given enough iterations
    for the answers the store gives, it returns the identifier field of
    every accumulated item, in the order of accumulation; and whatever it
    returns arises in this way. *)
Theorem get_offer_ids_collects_all_pages {Srv : Type}
    (seller_list : string → string → string → Srv → Res Seller.ProductPage * Srv)
    (market_list :
       option string → string → string → Srv → Res Market.OfferPage * Srv)
    (id token : string) (srv srv' : Srv) :
  (∀ pages fuel,
     seller_pages seller_list id token "" 0 srv pages srv' →
     (length pages ≤ fuel)%nat →
     Seller.get_offer_ids seller_list fuel id token srv =
       Some (Ok (Seller.product_offer_id <$> concat (Seller.r_items <$> pages)),
             srv')) ∧
  (∀ fuel ids,
     Seller.get_offer_ids seller_list fuel id token srv = Some (Ok ids, srv') →
     ∃ pages,
       seller_pages seller_list id token "" 0 srv pages srv' ∧
       ids = Seller.product_offer_id <$> concat (Seller.r_items <$> pages)) ∧
  (∀ answers fuel,
     market_pages market_list id token (Some "") srv answers srv' →
     (length answers ≤ fuel)%nat →
     Market.get_offer_ids market_list fuel id token srv =
       Some (Ok ((λ product, Market.shopSku (Market.offer product)) <$>
                 concat (Market.offerMappingEntries <$> answers)),
             srv')) ∧
  (∀ fuel ids,
     Market.get_offer_ids market_list fuel id token srv = Some (Ok ids, srv') →
     ∃ answers,
       market_pages market_list id token (Some "") srv answers srv' ∧
       ids = (λ product, Market.shopSku (Market.offer product)) <$>
             concat (Market.offerMappingEntries <$> answers)).
Proof.
  split_and!.
  - intros pages fuel Hpages Hfuel. unfold Seller.get_offer_ids.
    by rewrite (seller_product_loop_complete _ _ _ _ [] _ _ _ _ Hpages Hfuel).
  - intros fuel ids. unfold Seller.get_offer_ids.
    destruct (Seller.product_loop _ _ _ _ _ _ _) as [[[out|e] srv1]|] eqn:Hrun;
      [|done..].
    intros [= <- <-].
    apply seller_product_loop_sound in Hrun as (pages & Hpages & _ & ->).
    by exists pages.
  - intros answers fuel Hpages Hfuel. unfold Market.get_offer_ids.
    by rewrite (market_product_loop_complete _ _ _ _ [] _ _ _ _ Hpages Hfuel).
  - intros fuel ids. unfold Market.get_offer_ids.
    destruct (Market.product_loop _ _ _ _ _ _ _) as [[[out|e] srv1]|] eqn:Hrun;
      [|done..].
    intros [= <- <-].
    apply market_product_loop_sound in Hrun as (answers & Hpages & _ & ->).
    by exists answers.
Qed.

Lemma get_offer_ids_collects_all_pages_witness :
  Seller.get_offer_ids seller_two_pages 5 "client" "token" () =
    Some (Ok ["A"; "B"; "C"], ()) ∧
  Market.get_offer_ids market_two_pages 5 "campaign" "token" () =
    Some (Ok ["A"; "B"; "C"], ()).
Proof.
  split.
  - refine (proj1 (get_offer_ids_collects_all_pages
              seller_two_pages market_two_pages "client" "token" () ())
              [ {| Seller.r_items := [ {| Seller.product_offer_id := "A" |};
                                       {| Seller.product_offer_id := "B" |} ];
                   Seller.r_total := 3;
                   Seller.r_last_id := "p2" |};
                {| Seller.r_items := [ {| Seller.product_offer_id := "C" |} ];
                   Seller.r_total := 3;
                   Seller.r_last_id := "" |} ] 5%nat _ _).
    + eapply seller_pages_next; [reflexivity|by vm_compute|].
      eapply seller_pages_last; [reflexivity|by vm_compute].
    + simpl. lia.
  - refine (proj1 (proj2 (proj2 (get_offer_ids_collects_all_pages
              seller_two_pages market_two_pages "campaign" "token" () ())))
              [ {| Market.offerMappingEntries :=
                     [ {| Market.offer := {| Market.shopSku := "A" |} |};
                       {| Market.offer := {| Market.shopSku := "B" |} |} ];
                   Market.paging := {| Market.nextPageToken := Some "p2" |} |};
                {| Market.offerMappingEntries :=
                     [ {| Market.offer := {| Market.shopSku := "C" |} |} ];
                   Market.paging := {| Market.nextPageToken := None |} |} ]
              5%nat _ _).
    + eapply market_pages_next; [reflexivity|by vm_compute|].
      eapply market_pages_last; [reflexivity|by vm_compute].
    + simpl. lia.
Defined.

(** ** More on [create_stocks]: repeated identifiers, failures, ignored records *)

(** Whatever the identifier list holds, also the same identifier more than
    once, a returning [create_stocks] emits one entry per element of the
    list: the identifiers of the output are a rearrangement of the list. *)
Theorem create_stocks_keeps_identifier_count
    (F : list Watch) (S : list string) (utcnow warehouse_id : string) :
  (∀ out S', Seller.create_stocks F S = (Ok out, S') →
     Seller.offer_id <$> out ≡ₚ S ∧ length out = length S) ∧
  (∀ out S', Market.create_stocks utcnow F S warehouse_id = (Ok out, S') →
     Market.sku <$> out ≡ₚ S ∧ length out = length S).
Proof.
  assert (∀ out S', Seller.create_stocks F S = (Ok out, S') →
            Seller.offer_id <$> out ≡ₚ S ∧ length out = length S) as Hseller.
  { intros out S' (m & Hrun & ->)%seller_create_stocks_inv.
    destruct (seller_stocks_loop_inv _ _ _ _ Hrun) as (_ & _ & Hp).
    assert (Seller.offer_id <$>
              m ++ ((λ id, {| Seller.offer_id := id; Seller.stock := 0 |}) <$> S')
            ≡ₚ S) as Hperm by (by rewrite fmap_app, fallback_ids).
    split; [done|]. by rewrite <-Hperm, length_fmap. }
  split; [done|].
  intros out S' (out0 & Hrun & ->)%market_create_stocks_ok.
  rewrite to_market_sku, length_fmap. by eapply Hseller.
Qed.

Lemma create_stocks_keeps_identifier_count_witness :
  Seller.offer_id <$>
    [ {| Seller.offer_id := "A"; Seller.stock := 100 |};
      {| Seller.offer_id := "A"; Seller.stock := 0 |};
      {| Seller.offer_id := "C"; Seller.stock := 0 |} ] ≡ₚ ["A"; "A"; "C"] ∧
  length [ {| Seller.offer_id := "A"; Seller.stock := 100 |};
           {| Seller.offer_id := "A"; Seller.stock := 0 |};
           {| Seller.offer_id := "C"; Seller.stock := 0 |} ]
    = length ["A"; "A"; "C"].
Proof.
  eapply (proj1 (create_stocks_keeps_identifier_count
                   feed_AB ["A"; "A"; "C"] "" "")).
  vm_compute. reflexivity.
Defined.

Lemma feed_quantity_cons_ne w F id :
  code_of w ≠ id → feed_quantity (w :: F) id = feed_quantity F id.
Proof. intros Hne. unfold feed_quantity. by rewrite feed_record_cons_ne. Qed.

Lemma feed_quantity_cons_eq w F :
  feed_quantity (w :: F) (code_of w) = normalized_stock w.
Proof. unfold feed_quantity. by rewrite feed_record_cons_eq. Qed.

Lemma seller_stocks_loop_fails F S :
  NoDup S →
  (∃ e, (Seller.stocks_loop F [] S).1 = Err e) ↔
  (∃ id e, id ∈ S ∧ feed_quantity F id = Err e).
Proof.
  revert S. induction F as [|w F IH]; intros S Hnd.
  - simpl. split; [by intros [??]|by intros (?&?&?&?)].
  - rewrite seller_stocks_loop_cons. destruct (py_in _ S) eqn:Hin.
    + apply py_in_true in Hin.
      destruct (normalized_stock w) as [n|e] eqn:Hn.
      * destruct (py_remove_in _ _ Hin) as [S1 Hrm]. rewrite Hrm.
        pose proof (py_remove_filter _ _ _ Hnd Hrm) as ->.
        cbn [fst].
        pose proof (IH _ (NoDup_filter (λ y, y ≠ code_of w) _ Hnd)) as IH'.
        transitivity
          (∃ e, (Seller.stocks_loop F [] (filter (λ y, y ≠ code_of w) S)).1
                = Err e).
        { destruct (Seller.stocks_loop F [] _).1; simpl;
            split; intros [e' He']; by eauto. }
        rewrite IH'. split.
        -- intros (id & e & [Hne Hid]%list_elem_of_filter & Hq).
           exists id, e. split; [done|]. by rewrite feed_quantity_cons_ne.
        -- intros (id & e & Hid & Hq).
           destruct (decide (code_of w = id)) as [<-|Hne].
           { rewrite feed_quantity_cons_eq, Hn in Hq. done. }
           exists id, e. rewrite feed_quantity_cons_ne in Hq by done.
           split; [|done]. apply list_elem_of_filter. by split; [congruence|].
      * split; [|by eexists]. intros _. exists (code_of w), e.
        split; [done|]. by rewrite feed_quantity_cons_eq.
    + apply py_in_false in Hin. rewrite (IH _ Hnd).
      split; intros (id & e & Hid & Hq); exists id, e; (split; [done|]).
      * rewrite feed_quantity_cons_ne; [done|]. by intros <-.
      * rewrite feed_quantity_cons_ne in Hq; [done|]. by intros <-.
Qed.



Lemma seller_stocks_loop_app F1 F2 S :
  Seller.stocks_loop (F1 ++ F2) [] S =
  match Seller.stocks_loop F1 [] S with
  | (Ok m, S1) =>
      (res_map (app m) (Seller.stocks_loop F2 [] S1).1,
       (Seller.stocks_loop F2 [] S1).2)
  | (Err e, S1) => (Err e, S1)
  end.
Proof.
  revert S. induction F1 as [|w F1 IH]; intros S.
  - simpl. by destruct (Seller.stocks_loop F2 [] S) as [[m|e] S'].
  - rewrite <-app_comm_cons, !seller_stocks_loop_cons.
    destruct (py_in _ S); [|apply IH].
    destruct (normalized_stock w) as [n|e]; [|done].
    destruct (py_remove _ S) as [S1|e]; [|done].
    rewrite IH. destruct (Seller.stocks_loop F1 [] S1) as [[m|e] S2]; [|done].
    simpl. by destruct (Seller.stocks_loop F2 [] S2) as [[m'|e] S3].
Qed.

Lemma seller_stocks_loop_error_state F S e S' :
  NoDup S →
  Seller.stocks_loop F [] S = (Err e, S') →
  ∃ F1 w F2,
    F = F1 ++ w :: F2 ∧
    normalized_stock w = Err e ∧
    code_of w ∈ S' ∧
    S' = filter (λ id, id ∉ code_of <$> F1) S.
Proof.
  revert S. induction F as [|w F IH]; intros S Hnd Hrun; [done|].
  rewrite seller_stocks_loop_cons in Hrun.
  destruct (py_in _ S) eqn:Hin.
  - apply py_in_true in Hin.
    destruct (normalized_stock w) as [n|e0] eqn:Hn.
    + destruct (py_remove_in _ _ Hin) as [S1 Hrm]. rewrite Hrm in Hrun.
      pose proof (py_remove_filter _ _ _ Hnd Hrm) as ->.
      destruct (Seller.stocks_loop F [] _) as [[m|e1] S2] eqn:Hrest;
        simplify_eq/=.
      destruct (IH _ (NoDup_filter _ _ Hnd) Hrest)
        as (F1 & w' & F2 & -> & Hw' & Hmem & HS').
      exists (w :: F1), w', F2. split_and!; [done..|].
      rewrite HS', list_filter_filter. apply filter_ext_in.
      intros x _. rewrite fmap_cons, not_elem_of_cons. tauto.
    + simplify_eq. exists [], w, F. split_and!; [done..|].
      symmetry. apply filter_id, Forall_forall. intros x _. apply not_elem_of_nil.
  - apply py_in_false in Hin.
    destruct (IH _ Hnd Hrun) as (F1 & w' & F2 & -> & Hw' & Hmem & HS').
    exists (w :: F1), w', F2. split_and!; [done..|].
    rewrite HS'. apply filter_ext_in.
    intros x Hx. rewrite fmap_cons, not_elem_of_cons.
    split; [|tauto]. intros Hn. split; [|done]. by intros ->.
Qed.

(** When [create_stocks] raises on a duplicate-free identifier list, the
    caller's list is left half consumed: the identifiers matched by the
    records that precede the failing one are gone, the others, the failing
    record's own among them, are still there. *)
Theorem create_stocks_failure_leaves_partial_list
    (F : list Watch) (S : list string) (utcnow warehouse_id : string) :
  NoDup S →
  (∀ e S', Seller.create_stocks F S = (Err e, S') →
     ∃ F1 w F2,
       F = F1 ++ w :: F2 ∧ normalized_stock w = Err e ∧ code_of w ∈ S' ∧
       S' = filter (λ id, id ∉ code_of <$> F1) S) ∧
  (∀ e S', Market.create_stocks utcnow F S warehouse_id = (Err e, S') →
     ∃ F1 w F2,
       F = F1 ++ w :: F2 ∧ normalized_stock w = Err e ∧ code_of w ∈ S' ∧
       S' = filter (λ id, id ∉ code_of <$> F1) S).
Proof.
  intros Hnd.
  assert (∀ e S', Seller.create_stocks F S = (Err e, S') →
            ∃ F1 w F2,
              F = F1 ++ w :: F2 ∧ normalized_stock w = Err e ∧ code_of w ∈ S' ∧
              S' = filter (λ id, id ∉ code_of <$> F1) S) as Hseller.
  { intros e S'. unfold Seller.create_stocks.
    destruct (Seller.stocks_loop F [] S) as [[m|e0] S0] eqn:Hrun; [done|].
    intros [= <- <-]. by eapply seller_stocks_loop_error_state. }
  split; [done|]. intros e S'. rewrite market_create_stocks_sim.
  destruct (Seller.create_stocks F S) as [[out|e0] S0] eqn:Hrun; [done|].
  simpl. intros [= <- <-]. by apply Hseller.
Qed.

Lemma create_stocks_failure_leaves_partial_list_witness :
  ∃ F1 w F2,
    [watch_of "A" "3"; watch_of "B" "many"; watch_of "C" "4"]
      = F1 ++ w :: F2 ∧
    normalized_stock w = Err ValueError ∧ code_of w ∈ ["B"; "C"] ∧
    ["B"; "C"] = filter (λ id, id ∉ code_of <$> F1) ["A"; "B"; "C"].
Proof.
  apply (proj1 (create_stocks_failure_leaves_partial_list
           [watch_of "A" "3"; watch_of "B" "many"; watch_of "C" "4"]
           ["A"; "B"; "C"] "" ""
           ltac:(apply (bool_decide_unpack (NoDup ["A"; "B"; "C"]));
                 vm_compute; exact I))).
  vm_compute. reflexivity.
Defined.

(** On a duplicate-free identifier list, a feed record whose code an
    earlier record already carries changes nothing, whatever its quantity:
    [create_stocks] gives the same result and leaves the same list without
    it. *)
Theorem create_stocks_ignores_repeated_code
    (F1 F2 : list Watch) (w : Watch) (S : list string)
    (utcnow warehouse_id : string) :
  NoDup S →
  code_of w ∈ code_of <$> F1 →
  Seller.create_stocks (F1 ++ w :: F2) S = Seller.create_stocks (F1 ++ F2) S ∧
  Market.create_stocks utcnow (F1 ++ w :: F2) S warehouse_id
    = Market.create_stocks utcnow (F1 ++ F2) S warehouse_id.
Proof.
  intros Hnd Hw.
  assert (Seller.create_stocks (F1 ++ w :: F2) S
            = Seller.create_stocks (F1 ++ F2) S) as Hseller.
  { unfold Seller.create_stocks. rewrite !seller_stocks_loop_app.
    destruct (Seller.stocks_loop F1 [] S) as [[m|e] S1] eqn:Hrun; [|done].
    rewrite seller_stocks_loop_cons.
    rewrite (proj2 (py_in_false _ _)); [done|].
    rewrite (seller_stocks_loop_left _ _ _ _ Hnd Hrun).
    intros [Hn _]%list_elem_of_filter. done. }
  split; [done|]. by rewrite !market_create_stocks_sim, Hseller.
Qed.

Lemma create_stocks_ignores_repeated_code_witness :
  Seller.create_stocks
    ([watch_of "A" "3"] ++ watch_of "A" "many" :: [watch_of "B" "4"])
    ["A"; "B"]
  = Seller.create_stocks ([watch_of "A" "3"] ++ [watch_of "B" "4"]) ["A"; "B"].
Proof.
  apply (create_stocks_ignores_repeated_code
           [watch_of "A" "3"] [watch_of "B" "4"] (watch_of "A" "many")
           ["A"; "B"] "" "").
  - apply (bool_decide_unpack (NoDup ["A"; "B"])). vm_compute. exact I.
  - apply (bool_decide_unpack (_ ∈ _)). vm_compute. exact I.
Defined.

Lemma seller_stocks_loop_unlisted F S0 S :
  (∀ x, x ∈ S → x ∈ S0) →
  Seller.stocks_loop (filter (matched S0) F) [] S = Seller.stocks_loop F [] S.
Proof.
  revert S. induction F as [|w F IH]; intros S Hsub; [done|].
  rewrite filter_cons. destruct (decide (matched S0 w)) as [Hm|Hm].
  - rewrite !seller_stocks_loop_cons.
    destruct (py_in _ S); [|by apply IH].
    destruct (normalized_stock w) as [n|e]; [|done].
    destruct (py_remove _ S) as [S1|e] eqn:Hrm; [|done].
    rewrite IH; [done|]. intros x Hx. apply Hsub.
    rewrite (py_remove_perm _ _ _ Hrm). by right.
  - rewrite seller_stocks_loop_cons, (proj2 (py_in_false _ _)); [by apply IH|].
    intros Hin. apply Hm, Hsub, Hin.
Qed.

(** Feed records whose code is not in the identifier list play no part:
    dropping them from the feed changes neither the result of
    [create_stocks] nor what it leaves of the list. *)
Theorem create_stocks_ignores_unlisted_records
    (F : list Watch) (S : list string) (utcnow warehouse_id : string) :
  Seller.create_stocks (filter (matched S) F) S = Seller.create_stocks F S ∧
  Market.create_stocks utcnow (filter (matched S) F) S warehouse_id
    = Market.create_stocks utcnow F S warehouse_id.
Proof.
  assert (Seller.create_stocks (filter (matched S) F) S
            = Seller.create_stocks F S) as Hseller.
  { unfold Seller.create_stocks. by rewrite seller_stocks_loop_unlisted. }
  split; [done|]. by rewrite !market_create_stocks_sim, Hseller.
Qed.

(** ** The quantity rule on cells that are not strings *)

Lemma to_int_not_nil z :
  Z.to_int z ≠ Decimal.Pos Decimal.Nil ∧ Z.to_int z ≠ Decimal.Neg Decimal.Nil.
Proof.
  destruct z as [|p|p]; simpl; split; try done;
    intros [= Hp]; by apply DecimalPos.Unsigned.to_uint_nonnil in Hp.
Qed.

Lemma py_str_int_parse z :
  NilZero.int_of_string (py_str (PyInt z)) = Some (Z.to_int z).
Proof. simpl. apply NilZero.isi; apply to_int_not_nil. Qed.

Lemma py_str_int_one z : py_str (PyInt z) = "1" ↔ z = 1.
Proof.
  split; [|by intros ->]. intros Hs.
  pose proof (py_str_int_parse z) as Hp. rewrite Hs in Hp.
  rewrite <-(DecimalZ.of_to z). by injection Hp as <-.
Qed.

Lemma py_str_int_not_many z : py_str (PyInt z) ≠ ">10".
Proof.
  intros Hs. pose proof (py_str_int_parse z) as Hp. by rewrite Hs in Hp.
Qed.

(** The quantity rule on what the spreadsheet reader may leave in the cell
    besides a string: the integer 1 counts as 0 like the text ["1"], every
    other integer is taken as it is, negative ones too, and a record
    without the key (or with [None] in it) raises [TypeError]. *)
Theorem normalized_stock_of_cell (w : Watch) :
  (∀ z, w !! "Количество" = Some (PyInt z) →
     normalized_stock w = Ok (if bool_decide (z = 1) then 0 else z)) ∧
  (w !! "Количество" = None ∨ w !! "Количество" = Some PyNone →
     normalized_stock w = Err TypeError).
Proof.
  unfold normalized_stock, dict_get. split.
  - intros z ->. cbn [default].
    rewrite (bool_decide_eq_false_2 _ (py_str_int_not_many z)).
    case_bool_decide as H1; apply py_str_int_one in H1 || idtac.
    + by rewrite bool_decide_eq_true_2.
    + rewrite bool_decide_eq_false_2; [done|]. by rewrite <-py_str_int_one.
  - by intros [->| ->].
Qed.

Lemma normalized_stock_of_cell_witness :
  normalized_stock (<["Количество" := PyInt 1]> ∅) = Ok 0 ∧
  normalized_stock (<["Количество" := PyInt (-4)]> ∅) = Ok (-4) ∧
  normalized_stock (<["Код" := PyStr "A"]> ∅) = Err TypeError.
Proof.
  split_and!.
  - by apply (proj1 (normalized_stock_of_cell (<["Количество" := PyInt 1]> ∅)) 1).
  - by apply (proj1 (normalized_stock_of_cell
                       (<["Количество" := PyInt (-4)]> ∅)) (-4)).
  - apply (proj2 (normalized_stock_of_cell (<["Код" := PyStr "A"]> ∅))).
    left. reflexivity.
Defined.

(** ** [create_prices] of seller.py *)

Lemma seller_prices_loop_cases F S acc :
  (Exists (stringless_price S) F ∧
   Seller.prices_loop F acc S = Err AttributeError) ∨
  (¬ Exists (stringless_price S) F ∧
   Seller.prices_loop F acc S =
     Ok (acc ++ (seller_price_entry <$> filter (matched S) F))).
Proof.
  revert acc. induction F as [|w F IH]; intros acc.
  - right. split; [by intros ?%Exists_nil|]. simpl. by rewrite app_nil_r.
  - cbn [Seller.prices_loop]. fold (code_of w).
    destruct (py_in (code_of w) S) eqn:Hin.
    + apply py_in_true in Hin.
      destruct (dict_get w "Цена") as [|p|z] eqn:Hp; cbn [price_conversion_val].
      * left. split; [|done]. apply Exists_cons_hd. split; [done|].
        intros p. by rewrite Hp.
      * assert (¬ stringless_price S w) as Hw.
        { intros [_ Hno]. by apply (Hno p). }
        destruct (IH (acc ++ [seller_price_entry w])) as [[Hex Hrun]|[Hex Hrun]].
        -- left. split; [by apply Exists_cons_tl|].
           unfold seller_price_entry in Hrun.
           by rewrite (price_text_str _ _ Hp) in Hrun.
        -- right. split; [by intros [?|?]%Exists_cons|].
           unfold seller_price_entry in Hrun at 1.
           rewrite (price_text_str _ _ Hp) in Hrun. rewrite Hrun.
           rewrite filter_cons_True by done.
           by rewrite fmap_cons, <-app_assoc.
      * left. split; [|done]. apply Exists_cons_hd. split; [done|].
        intros p. by rewrite Hp.
    + apply py_in_false in Hin.
      assert (¬ stringless_price S w) as Hw by (by intros [? _]).
      destruct (IH acc) as [[Hex Hrun]|[Hex Hrun]].
      * left. split; [by apply Exists_cons_tl|done].
      * right. split; [by intros [?|?]%Exists_cons|].
        by rewrite filter_cons_False.
Qed.

(** [create_prices] of seller.py raises, with [AttributeError], exactly when
    a matched record has no string as price (the key is missing, or the cell
    holds a number).  Otherwise it returns, for every matched record in feed
    order, the entry with the fixed fields ["UNKNOWN"], ["RUB"], ["0"] and
    the converted price; a price without digits gives the empty string and
    no error. *)
Theorem seller_create_prices_result (F : list Watch) (S : list string) :
  ((∃ w, w ∈ F ∧ stringless_price S w) →
     Seller.create_prices F S = (Err AttributeError, S)) ∧
  (¬ (∃ w, w ∈ F ∧ stringless_price S w) →
     Seller.create_prices F S =
       (Ok (seller_price_entry <$> filter (matched S) F), S)).
Proof.
  unfold Seller.create_prices.
  destruct (seller_prices_loop_cases F S []) as [[Hex ->]|[Hex ->]];
    rewrite Exists_exists in Hex; split; done.
Qed.

Lemma seller_create_prices_result_witness :
  Seller.create_prices [watch_priced "A" "руб."; watch_of "B" "5"] ["A"]
    = (Ok [ {| Seller.auto_action_enabled := "UNKNOWN";
               Seller.currency_code := "RUB";
               Seller.price_offer_id := "A";
               Seller.old_price := "0";
               Seller.price := "" |} ], ["A"]) ∧
  Seller.create_prices [watch_priced "A" "100"; watch_of "B" "5"] ["A"; "B"]
    = (Err AttributeError, ["A"; "B"]).
Proof.
  split.
  - refine (eq_trans (proj2 (seller_create_prices_result
              [watch_priced "A" "руб."; watch_of "B" "5"] ["A"]) _) _).
    + intros (w & Hw & [Hm Hno]).
      apply elem_of_cons in Hw as [->|Hw].
      * by apply (Hno "руб.").
      * apply list_elem_of_singleton in Hw as ->.
        apply list_elem_of_singleton in Hm. vm_compute in Hm. discriminate.
    + vm_compute. reflexivity.
  - apply (proj1 (seller_create_prices_result
             [watch_priced "A" "100"; watch_of "B" "5"] ["A"; "B"])).
    exists (watch_of "B" "5"). split; [right; left|]. split.
    + right. left.
    + intros p. vm_compute. discriminate.
Defined.

Lemma prices_loops_agree F S macc sacc mout :
  Forall2 same_price macc sacc →
  Market.prices_loop F macc S = Ok mout →
  ∃ sout, Seller.prices_loop F sacc S = Ok sout ∧ Forall2 same_price mout sout.
Proof.
  revert macc sacc. induction F as [|w F IH]; intros macc sacc Hacc Hrun.
  - simpl in *. simplify_eq. by eexists.
  - cbn [Market.prices_loop Seller.prices_loop] in *.
    destruct (py_in _ S); [|by eapply IH].
    destruct (price_conversion_val _) as [p|e]; [|done].
    destruct (py_int_str p) as [v|e] eqn:Hv; [|done].
    eapply IH; [|done]. apply Forall2_app; [done|].
    by repeat constructor.
Qed.

(** Wherever [create_prices] of market.py returns, [create_prices] of
    seller.py returns as well, with an entry for the same identifiers in
    the same order, and each market.py value is what [int] makes of the
    seller.py price string. *)
Theorem market_prices_agree_with_seller_prices
    (F : list Watch) (S : list string) (mout : list Market.Price) (S' : list string) :
  Market.create_prices F S = (Ok mout, S') →
  ∃ sout,
    Seller.create_prices F S = (Ok sout, S') ∧ Forall2 same_price mout sout.
Proof.
  unfold Market.create_prices, Seller.create_prices. intros [= Hrun <-].
  destruct (prices_loops_agree F S [] [] mout ltac:(constructor) Hrun)
    as (sout & -> & Hsame).
  by exists sout.
Qed.

Lemma market_prices_agree_with_seller_prices_witness :
  ∃ sout,
    Seller.create_prices [watch_priced "A" "5'990.00 руб."] ["A"]
      = (Ok sout, ["A"]) ∧
    Forall2 same_price
      [ {| Market.id := "A";
           Market.price := {| Market.value := 5990;
                              Market.currencyId := "RUR" |} |} ] sout.
Proof.
  apply (market_prices_agree_with_seller_prices
           [watch_priced "A" "5'990.00 руб."] ["A"]).
  vm_compute. reflexivity.
Defined.

(** ** [price_conversion]: the fraction is cut, digits are fixed points *)

Lemma before_first_dot_append pre post :
  dot_free pre = true →
  before_first_dot (pre +:+ String "."%char post) = pre.
Proof.
  unfold dot_free. induction pre as [|c pre IH]; [done|].
  simpl. intros [Hc Hpre]%andb_true_iff.
  destruct (bool_decide (c = "."%char)); [done|]. by rewrite IH.
Qed.

Lemma before_first_dot_dot_free s :
  dot_free s = true → before_first_dot s = s.
Proof.
  unfold dot_free. induction s as [|c s IH]; [done|].
  simpl. intros [Hc Hs]%andb_true_iff.
  destruct (bool_decide (c = "."%char)); [done|]. by rewrite IH.
Qed.

Lemma digits_dot_free s : all_digits s = true → dot_free s = true.
Proof.
  unfold all_digits, dot_free. induction s as [|c s IH]; [done|].
  simpl. intros [Hc Hs]%andb_true_iff. rewrite IH by done.
  destruct c as [[] [] [] [] [] [] [] []]; done.
Qed.

Lemma re_sub_non_digits_digits s :
  all_digits s = true → re_sub_non_digits s = s.
Proof.
  unfold all_digits. induction s as [|c s IH]; [done|].
  simpl. intros [Hc Hs]%andb_true_iff. by rewrite Hc, IH.
Qed.

(** [price_conversion] cuts the price at its first ['.'] and never rounds:
    whatever follows the first ['.'] has no influence on the result. *)
Theorem price_conversion_drops_fraction (pre post : string) :
  dot_free pre = true →
  price_conversion (pre +:+ String "."%char post) = price_conversion pre.
Proof.
  intros Hpre. rewrite !price_conversion_before_first_dot.
  by rewrite before_first_dot_append, before_first_dot_dot_free.
Qed.

Lemma price_conversion_drops_fraction_witness :
  price_conversion ("5'990" +:+ String "."%char "99 руб.")
    = price_conversion "5'990".
Proof. apply price_conversion_drops_fraction. reflexivity. Defined.

(** A string of digits is returned as it is, so converting a converted
    price changes nothing. *)
Theorem price_conversion_idempotent (s : string) :
  (all_digits s = true → price_conversion s = s) ∧
  price_conversion (price_conversion s) = price_conversion s.
Proof.
  assert (∀ t, all_digits t = true → price_conversion t = t) as Hfix.
  { intros t Ht. rewrite price_conversion_before_first_dot.
    rewrite before_first_dot_dot_free by (by apply digits_dot_free).
    by apply re_sub_non_digits_digits. }
  split; [apply Hfix|]. apply Hfix.
  rewrite price_conversion_before_first_dot. apply re_sub_non_digits_all_digits.
Qed.

Lemma price_conversion_idempotent_witness :
  price_conversion "5990" = "5990" ∧
  price_conversion (price_conversion "5990") = price_conversion "5990".
Proof.
  split.
  - refine (proj1 (price_conversion_idempotent "5990") _). reflexivity.
  - exact (proj2 (price_conversion_idempotent "5990")).
Defined.

(** ** [divide]: bad chunk sizes, positions *)

(** A chunk size of zero makes [divide] raise [ValueError] (from [range]);
    a negative chunk size makes it yield nothing at all, whatever the list
    holds. *)
Theorem divide_nonpositive_size {A : Type} (lst : list A) (n : Z) :
  (n = 0 → divide lst n = Err ValueError) ∧
  (n < 0 → divide lst n = Ok []).
Proof.
  unfold divide, py_range. split.
  - by intros ->.
  - intros Hn. rewrite (proj2 (Z.eqb_neq n 0)) by lia.
    rewrite (proj2 (Z.ltb_ge 0 n)) by lia.
    by rewrite (proj2 (Z.ltb_ge (Z.of_nat (length lst)) 0)) by lia.
Qed.

Lemma divide_nonpositive_size_witness :
  divide ["a"; "b"; "c"] 0 = Err ValueError ∧
  divide ["a"; "b"; "c"] (-2) = Ok [].
Proof.
  split.
  - apply (divide_nonpositive_size ["a"; "b"; "c"] 0). reflexivity.
  - apply (divide_nonpositive_size ["a"; "b"; "c"] (-2)). lia.
Defined.

(** For a positive [n], [divide] yields the least number of chunks that
    hold the list, [ceil(len / n)], and the element at position [j] of the
    list is the element at position [j mod n] of chunk [j / n]. *)
Theorem divide_positions {A : Type} (lst : list A) (n : Z) :
  0 < n →
  ∃ chunks,
    divide lst n = Ok chunks ∧
    Z.of_nat (length chunks) = (Z.of_nat (length lst) + n - 1) / n ∧
    ∀ j : nat, (j < length lst)%nat →
      chunks !! (j / Z.to_nat n)%nat ≫= (.!! (j mod Z.to_nat n)%nat)
        = lst !! j.
Proof.
  intros Hn. destruct (divide_unfold lst n Hn) as (m & -> & Hge & Hlt).
  eexists. split; [done|]. rewrite length_fmap, length_seq.
  set (N := Z.to_nat n) in *. assert (0 < N)%nat as HN by lia.
  split.
  - assert (m = ((length lst + N - 1) / N)%nat) as ->.
    { destruct m as [|m].
      - symmetry. apply Nat.div_small. lia.
      - pose proof (Hlt m ltac:(lia)).
        apply (Nat.div_unique _ _ _ (length lst + N - 1 - (S m) * N)%nat); nia. }
    rewrite Nat2Z.inj_div. f_equal; lia.
  - intros j Hj.
    pose proof (Nat.div_mod_eq j N) as Hdm.
    pose proof (Nat.mod_upper_bound j N ltac:(lia)) as Hmod.
    assert (j / N < m)%nat as Hq.
    { destruct (decide (j / N < m)%nat) as [|Hnlt]; [done|exfalso]. nia. }
    rewrite list_lookup_fmap, lookup_seq_lt by done. simpl.
    unfold chunk. rewrite lookup_take_lt, lookup_drop by done.
    f_equal. lia.
Qed.

Lemma divide_positions_witness :
  ∃ chunks,
    divide ["a"; "b"; "c"; "d"; "e"; "f"; "g"] 3 = Ok chunks ∧
    Z.of_nat (length chunks)
      = (Z.of_nat (length ["a"; "b"; "c"; "d"; "e"; "f"; "g"]) + 3 - 1) / 3 ∧
    ∀ j : nat, (j < length ["a"; "b"; "c"; "d"; "e"; "f"; "g"])%nat →
      chunks !! (j / Z.to_nat 3)%nat ≫= (.!! (j mod Z.to_nat 3)%nat)
        = ["a"; "b"; "c"; "d"; "e"; "f"; "g"] !! j.
Proof.
  apply (divide_positions ["a"; "b"; "c"; "d"; "e"; "f"; "g"] 3). lia.
Defined.

(** ** [get_offer_ids]: failures, the reported total, endless paging *)

Section ResolverFailures.
Context {Srv : Type}.
Variable seller_list :
  string → string → string → Srv → Res Seller.ProductPage * Srv.
Variable market_list :
  option string → string → string → Srv → Res Market.OfferPage * Srv.
Variables id token : string.

Lemma seller_product_loop_open last_id acc srv pages last_id' n' srv' fuel :
  seller_pages_open seller_list id token
    last_id (length acc) srv pages last_id' n' srv' →
  n' = length (acc ++ concat (Seller.r_items <$> pages)) ∧
  Seller.product_loop seller_list (length pages + fuel) id token last_id acc srv
    = Seller.product_loop seller_list fuel id token last_id'
        (acc ++ concat (Seller.r_items <$> pages)) srv'.
Proof.
  intros Hopen. remember (length acc) as n eqn:Hn. revert acc Hn.
  induction Hopen as [last_id n srv
                     |last_id n srv page srv1 pages last_id' n' srv'
                        Hcall Htotal _ IH]; intros acc ->.
  - simpl. by rewrite app_nil_r.
  - simpl. rewrite Hcall.
    rewrite bool_decide_eq_false_2 by (by rewrite length_app).
    destruct (IH (acc ++ Seller.r_items page)) as [-> ->];
      [by rewrite length_app|].
    by rewrite <-!app_assoc.
Qed.

Lemma market_product_loop_open page acc srv answers page' srv' fuel :
  market_pages_open market_list id token page srv answers page' srv' →
  Market.product_loop market_list (length answers + fuel) id token page acc srv
    = Market.product_loop market_list fuel id token page'
        (acc ++ concat (Market.offerMappingEntries <$> answers)) srv'.
Proof.
  intros Hopen. revert acc.
  induction Hopen as [page srv
                     |page srv answer srv1 answers page' srv' Hcall Hlast _ IH];
    intros acc.
  - simpl. by rewrite app_nil_r.
  - simpl. rewrite Hcall, Hlast, IH. by rewrite <-!app_assoc.
Qed.

Lemma seller_pages_last_total last_id n srv pages srv' :
  seller_pages seller_list id token last_id n srv pages srv' →
  ∃ cursor srv0 page,
    seller_list cursor id token srv0 = (Ok page, srv') ∧
    Seller.r_total page
      = Z.of_nat (n + length (concat (Seller.r_items <$> pages))).
Proof.
  induction 1 as [last_id n srv page srv' Hcall Htotal
                 |last_id n srv page srv' pages srv'' Hcall Htotal _ IH].
  - exists last_id, srv, page. split; [done|].
    simpl. by rewrite app_nil_r.
  - destruct IH as (cursor & srv0 & page' & Hcall' & Htotal').
    exists cursor, srv0, page'. split; [done|].
    rewrite Htotal', fmap_cons. cbn [concat]. rewrite length_app. lia.
Qed.
End ResolverFailures.

(** [get_offer_ids] has no retry and no handler: when a call of the list
    endpoint raises after some pages that did not end the loop, the function
    raises the same exception, the pages accumulated so far are lost, and
    the store is left as the failing call left it. *)
Theorem get_offer_ids_propagates_failure {Srv : Type}
    (seller_list : string → string → string → Srv → Res Seller.ProductPage * Srv)
    (market_list :
       option string → string → string → Srv → Res Market.OfferPage * Srv)
    (id token : string) (srv srv1 srv2 : Srv) (e : Exn) :
  (∀ pages last_id n fuel,
     seller_pages_open seller_list id token "" 0 srv pages last_id n srv1 →
     seller_list last_id id token srv1 = (Err e, srv2) →
     (length pages < fuel)%nat →
     Seller.get_offer_ids seller_list fuel id token srv = Some (Err e, srv2)) ∧
  (∀ answers page fuel,
     market_pages_open market_list id token (Some "") srv answers page srv1 →
     market_list page id token srv1 = (Err e, srv2) →
     (length answers < fuel)%nat →
     Market.get_offer_ids market_list fuel id token srv = Some (Err e, srv2)).
Proof.
  split.
  - intros pages last_id n fuel Hopen Hcall Hfuel.
    unfold Seller.get_offer_ids.
    replace fuel with (length pages + S (fuel - S (length pages)))%nat by lia.
    destruct (seller_product_loop_open seller_list id token
                "" [] srv pages last_id n srv1 (S (fuel - S (length pages)))
                Hopen) as [_ ->].
    simpl. by rewrite Hcall.
  - intros answers page fuel Hopen Hcall Hfuel.
    unfold Market.get_offer_ids.
    replace fuel with (length answers + S (fuel - S (length answers)))%nat
      by lia.
    rewrite (market_product_loop_open market_list id token
               (Some "") [] srv answers page srv1 _ Hopen).
    simpl. by rewrite Hcall.
Qed.

Lemma get_offer_ids_propagates_failure_witness :
  Seller.get_offer_ids seller_fails_on_second_page 7 "client" "token" 0%nat
    = Some (Err HTTPError, 2%nat) ∧
  Market.get_offer_ids market_fails_at_once 7 "campaign" "token" 0%nat
    = Some (Err HTTPError, 1%nat).
Proof.
  split.
  - refine (proj1 (get_offer_ids_propagates_failure
              seller_fails_on_second_page market_fails_at_once
              "client" "token" 0%nat 1%nat 2%nat HTTPError)
              [ {| Seller.r_items := [ {| Seller.product_offer_id := "A" |} ];
                   Seller.r_total := 2;
                   Seller.r_last_id := "p2" |} ] "p2" 1%nat 7%nat _ _ _).
    + eapply seller_open_cons; [reflexivity|by vm_compute|].
      apply seller_open_nil.
    + reflexivity.
    + simpl. lia.
  - refine (proj2 (get_offer_ids_propagates_failure
              seller_fails_on_second_page market_fails_at_once
              "campaign" "token" 0%nat 0%nat 1%nat HTTPError)
              [] (Some "") 7%nat _ _ _).
    + apply market_open_nil.
    + reflexivity.
    + simpl. lia.
Defined.

(** When [get_offer_ids] of seller.py returns, the number of identifiers it
    returns is the [total] that the last answer of the store reported. *)
Theorem seller_get_offer_ids_returns_total_many {Srv : Type}
    (seller_list : string → string → string → Srv → Res Seller.ProductPage * Srv)
    (id token : string) (srv srv' : Srv) (fuel : nat) (ids : list string) :
  Seller.get_offer_ids seller_list fuel id token srv = Some (Ok ids, srv') →
  ∃ cursor srv0 page,
    seller_list cursor id token srv0 = (Ok page, srv') ∧
    Seller.r_total page = Z.of_nat (length ids).
Proof.
  unfold Seller.get_offer_ids.
  destruct (Seller.product_loop _ _ _ _ _ _ _) as [[[out|e] srv1]|] eqn:Hrun;
    [|done..].
  intros [= <- <-].
  apply seller_product_loop_sound in Hrun as (pages & Hpages & _ & ->).
  destruct (seller_pages_last_total _ _ _ _ _ _ _ _ Hpages)
    as (cursor & srv0 & page & Hcall & Htotal).
  exists cursor, srv0, page. split; [done|].
  by rewrite Htotal, length_fmap.
Qed.

Lemma seller_get_offer_ids_returns_total_many_witness :
  ∃ cursor srv0 page,
    seller_two_pages cursor "client" "token" srv0 = (Ok page, ()) ∧
    Seller.r_total page = Z.of_nat (length ["A"; "B"; "C"]).
Proof.
  apply (seller_get_offer_ids_returns_total_many
           seller_two_pages "client" "token" () () 5 ["A"; "B"; "C"]).
  vm_compute. reflexivity.
Defined.

Section ResolverEndless.
Context {Srv : Type}.
Variable seller_list :
  string → string → string → Srv → Res Seller.ProductPage * Srv.
Variable market_list :
  option string → string → string → Srv → Res Market.OfferPage * Srv.
Variables id token : string.

Lemma seller_product_loop_mono fuel k last_id acc srv r :
  Seller.product_loop seller_list fuel id token last_id acc srv = Some r →
  Seller.product_loop seller_list (fuel + k) id token last_id acc srv = Some r.
Proof.
  revert last_id acc srv. induction fuel as [|fuel IH];
    intros last_id acc srv Hrun; [done|].
  simpl in *. destruct (seller_list last_id id token srv) as [[page|e] srv1];
    [|done].
  destruct (bool_decide _); [done|]. by apply IH.
Qed.

Lemma seller_product_loop_overshoot (n : nat) :
  (∀ cursor s, ∃ page s',
     seller_list cursor id token s = (Ok page, s') ∧
     Seller.r_total page < Z.of_nat n) →
  ∀ fuel last_id acc srv,
    (n ≤ length acc)%nat →
    Seller.product_loop seller_list fuel id token last_id acc srv = None.
Proof.
  intros Hstore. induction fuel as [|fuel IH]; intros last_id acc srv Hacc;
    [done|].
  simpl. destruct (Hstore last_id srv) as (page & srv1 & -> & Htotal).
  rewrite bool_decide_eq_false_2 by (rewrite length_app; lia).
  apply IH. rewrite length_app. lia.
Qed.

Lemma market_product_loop_endless :
  (∀ page s, ∃ answer s',
     market_list page id token s = (Ok answer, s') ∧
     Market.py_not (Market.nextPageToken (Market.paging answer)) = false) →
  ∀ fuel page acc srv,
    Market.product_loop market_list fuel id token page acc srv = None.
Proof.
  intros Hstore. induction fuel as [|fuel IH]; intros page acc srv; [done|].
  simpl. destruct (Hstore page srv) as (answer & srv1 & -> & ->). apply IH.
Qed.
End ResolverEndless.

(** The loop of [get_offer_ids] has no bound of its own.  In seller.py it
    stops on equality only: once more items are accumulated than the store
    reports as [total] from then on, no number of iterations ends it.  In
    market.py it runs for as long as every answer names a next page. *)
Theorem get_offer_ids_can_run_forever {Srv : Type}
    (seller_list : string → string → string → Srv → Res Seller.ProductPage * Srv)
    (market_list :
       option string → string → string → Srv → Res Market.OfferPage * Srv)
    (id token : string) (srv : Srv) :
  (∀ pages last_id n srv1,
     seller_pages_open seller_list id token "" 0 srv pages last_id n srv1 →
     (∀ cursor s, ∃ page s',
        seller_list cursor id token s = (Ok page, s') ∧
        Seller.r_total page < Z.of_nat n) →
     ∀ fuel, Seller.get_offer_ids seller_list fuel id token srv = None) ∧
  ((∀ page s, ∃ answer s',
      market_list page id token s = (Ok answer, s') ∧
      Market.py_not (Market.nextPageToken (Market.paging answer)) = false) →
   ∀ fuel, Market.get_offer_ids market_list fuel id token srv = None).
Proof.
  split.
  - intros pages last_id n srv1 Hopen Hstore fuel.
    unfold Seller.get_offer_ids.
    destruct (Seller.product_loop seller_list fuel id token "" [] srv)
      as [r|] eqn:Hrun; [exfalso|done].
    apply (seller_product_loop_mono _ _ _ _ (length pages)) in Hrun.
    rewrite Nat.add_comm in Hrun.
    destruct (seller_product_loop_open seller_list id token
                "" [] srv pages last_id n srv1 fuel Hopen) as [Hn Heq].
    rewrite Heq in Hrun.
    rewrite (seller_product_loop_overshoot seller_list id token n Hstore)
      in Hrun; [done|].
    rewrite Hn. done.
  - intros Hstore fuel. unfold Market.get_offer_ids.
    by rewrite (market_product_loop_endless market_list id token Hstore).
Qed.

Lemma get_offer_ids_can_run_forever_witness :
  (∀ fuel,
     Seller.get_offer_ids seller_overshoots fuel "client" "token" 0%nat = None) ∧
  (∀ fuel,
     Market.get_offer_ids market_always_next fuel "campaign" "token" 0%nat
       = None).
Proof.
  split.
  - refine (proj1 (get_offer_ids_can_run_forever
              seller_overshoots market_always_next "client" "token" 0%nat)
              [ {| Seller.r_items := [ {| Seller.product_offer_id := "A" |};
                                       {| Seller.product_offer_id := "B" |} ];
                   Seller.r_total := 3;
                   Seller.r_last_id := "next" |};
                {| Seller.r_items := [ {| Seller.product_offer_id := "A" |};
                                       {| Seller.product_offer_id := "B" |} ];
                   Seller.r_total := 3;
                   Seller.r_last_id := "next" |} ] "next" 4%nat 2%nat _ _).
    + eapply seller_open_cons; [reflexivity|by vm_compute|].
      eapply seller_open_cons; [reflexivity|by vm_compute|].
      apply seller_open_nil.
    + intros cursor s. eexists _, _. split; [reflexivity|]. simpl. lia.
  - refine (proj2 (get_offer_ids_can_run_forever
              seller_overshoots market_always_next "campaign" "token" 0%nat) _).
    intros page s. eexists _, _. split; reflexivity.
Defined.

(** ** Posting the batches *)

Lemma divide_chunk_sizes {A : Type} (lst : list A) (n : Z) :
  0 < n →
  ∃ chunks,
    divide lst n = Ok chunks ∧
    concat chunks = lst ∧
    Forall (λ c, (0 < length c ≤ Z.to_nat n)%nat) chunks.
Proof.
  intros Hn. destruct (divide_unfold lst n Hn) as (m & -> & Hge & Hlt).
  eexists. split; [done|]. split.
  - rewrite concat_chunks. by apply take_ge.
  - apply Forall_fmap, Forall_forall. intros k Hk.
    apply list_elem_of_lookup in Hk as [i Hi].
    apply lookup_seq in Hi as [-> Hi]. simpl. unfold chunk.
    rewrite length_take, length_drop. pose proof (Hlt i Hi). lia.
Qed.

Section ForEach.
Context {X Resp Srv : Type}.
Variable call : X → Srv → Res Resp * Srv.

Lemma for_each_accepted (xs : list X) (srv : Srv) :
  (∀ x s, x ∈ xs → ∃ resp s', call x s = (Ok resp, s')) →
  ∃ srv', for_each call xs srv = (Ok (), srv', xs).
Proof.
  revert srv. induction xs as [|x xs IH]; intros srv Hacc; [by eexists|].
  simpl. destruct (Hacc x srv) as (resp & srv1 & ->); [by left|].
  destruct (IH srv1) as [srv' ->]; [|by eexists].
  intros y s Hy. apply Hacc. by right.
Qed.

Lemma for_each_sent (xs : list X) (srv : Srv) r srv' sent :
  for_each call xs srv = (r, srv', sent) →
  sent `prefix_of` xs ∧
  (r = Ok () → sent = xs) ∧
  (∀ e, r = Err e →
     ∃ before x s0, sent = before ++ [x] ∧ call x s0 = (Err e, srv')).
Proof.
  revert srv sent. induction xs as [|x xs IH]; intros srv sent Hrun.
  - simpl in Hrun. simplify_eq. split_and!; [done..|]. by intros e.
  - simpl in Hrun. destruct (call x srv) as [[resp|e0] srv1] eqn:Hcall.
    + destruct (for_each call xs srv1) as [[r1 srv2] sent1] eqn:Hrest.
      simplify_eq. destruct (IH _ _ Hrest) as (Hpre & Hok & Herr).
      split_and!.
      * by apply prefix_cons.
      * intros Hr. by rewrite Hok.
      * intros e He. destruct (Herr e He) as (before & y & s0 & -> & Hy).
        by exists (x :: before), y, s0.
    + simplify_eq. split_and!.
      * by exists xs.
      * done.
      * intros e [= <-]. by exists [], x, srv.
Qed.
End ForEach.

Lemma seller_not_empty_ids F stocks ids :
  Seller.offer_id <$> stocks ≡ₚ ids →
  (∀ e, e ∈ stocks → feed_quantity F (Seller.offer_id e) = Ok (Seller.stock e)) →
  ∀ id,
    id ∈ Seller.offer_id <$> filter (λ e, Seller.stock e ≠ 0) stocks ↔
    id ∈ ids ∧ ∃ n, feed_quantity F id = Ok n ∧ n ≠ 0.
Proof.
  intros Hperm Hq id. split.
  - intros (e & -> & [Hne He]%list_elem_of_filter)%list_elem_of_fmap.
    split.
    + rewrite <-Hperm. by apply list_elem_of_fmap_2.
    + exists (Seller.stock e). split; [by apply Hq|done].
  - intros [Hid (n & Hn & Hne)]. rewrite <-Hperm in Hid.
    apply list_elem_of_fmap in Hid as (e & -> & He).
    apply list_elem_of_fmap_2, list_elem_of_filter. split; [|done].
    rewrite (Hq e He) in Hn. by injection Hn as ->.
Qed.



(** Once the identifiers are resolved and the stock list is built,
    [upload_stocks] of seller.py posts the batches of the list in order and
    stops at the first one the endpoint rejects: what it has posted is an
    initial part of the batches, all of them when it returns, and ending
    with the rejected batch when it raises, with the endpoint's exception.
    Nothing is retried and nothing posted is taken back. *)
Theorem seller_upload_stocks_stops_at_rejected_batch {Srv Resp : Type}
    (get_product_list :
       string → string → string → Srv → Res Seller.ProductPage * Srv)
    (update_stocks :
       list Seller.Stock → string → string → Srv → Res Resp * Srv)
    (fuel : nat) (F : list Watch) (client_id seller_token : string)
    (srv srv1 srv2 : Srv) (ids S' : list string) (stocks : list Seller.Stock)
    (r : Res (list Seller.Stock * list Seller.Stock))
    (sent : list (list Seller.Stock)) :
  Seller.get_offer_ids get_product_list fuel client_id seller_token srv
    = Some (Ok ids, srv1) →
  Seller.create_stocks F ids = (Ok stocks, S') →
  Seller.upload_stocks get_product_list update_stocks
    fuel F client_id seller_token srv = Some (r, srv2, sent) →
  ∃ batches,
    divide stocks 100 = Ok batches ∧
    sent `prefix_of` batches ∧
    (is_Ok r → sent = batches) ∧
    (∀ e, r = Err e →
       ∃ before batch s0,
         sent = before ++ [batch] ∧
         update_stocks batch client_id seller_token s0 = (Err e, srv2)).
Proof.
  intros Hids Hstocks. unfold Seller.upload_stocks. rewrite Hids, Hstocks.
  destruct (divide_chunk_sizes stocks 100 ltac:(lia)) as (batches & -> & _ & _).
  destruct (for_each _ batches srv1) as [[r1 srv3] sent1] eqn:Hrun.
  destruct (for_each_sent _ _ _ _ _ _ Hrun) as (Hpre & Hok & Herr).
  intros Hup. exists batches. split; [done|].
  destruct r1 as [[]|e1]; simplify_eq.
  - split_and!; [done|by intros _; apply Hok|by intros e].
  - split_and!; [done|by intros [??]|].
    intros e [= <-]. by apply Herr.
Qed.

Lemma seller_upload_stocks_stops_at_rejected_batch_witness :
  ∃ batches,
    divide [ {| Seller.offer_id := "A"; Seller.stock := 100 |};
             {| Seller.offer_id := "B"; Seller.stock := 0 |};
             {| Seller.offer_id := "C"; Seller.stock := 0 |} ] 100
      = Ok batches ∧
    [ [ {| Seller.offer_id := "A"; Seller.stock := 100 |};
        {| Seller.offer_id := "B"; Seller.stock := 0 |};
        {| Seller.offer_id := "C"; Seller.stock := 0 |} ] ]
      `prefix_of` batches ∧
    (is_Ok (@Err (list Seller.Stock * list Seller.Stock) HTTPError) →
       [ [ {| Seller.offer_id := "A"; Seller.stock := 100 |};
           {| Seller.offer_id := "B"; Seller.stock := 0 |};
           {| Seller.offer_id := "C"; Seller.stock := 0 |} ] ] = batches) ∧
    (∀ e, @Err (list Seller.Stock * list Seller.Stock) HTTPError = Err e →
       ∃ before batch s0,
         [ [ {| Seller.offer_id := "A"; Seller.stock := 100 |};
             {| Seller.offer_id := "B"; Seller.stock := 0 |};
             {| Seller.offer_id := "C"; Seller.stock := 0 |} ] ]
           = before ++ [batch] ∧
         @reject_batch Seller.Stock batch "client" "token" s0
           = (Err e, ())).
Proof.
  apply (seller_upload_stocks_stops_at_rejected_batch
           seller_two_pages reject_batch 5 feed_AB "client" "token"
           () () () ["A"; "B"; "C"] ["C"]).
  - vm_compute. reflexivity.
  - vm_compute. reflexivity.
  - vm_compute. reflexivity.
Defined.

(** ** [upload_stocks] of market.py *)

Lemma filter_has_count_to_market wh d (l : list Seller.Stock) :
  Market.filter_has_count (to_market wh d <$> l) =
  Some (to_market wh d <$> filter (λ e, Seller.stock e ≠ 0) l).
Proof.
  induction l as [|e l IH]; [done|].
  rewrite fmap_cons. cbn [Market.filter_has_count]. rewrite IH.
  cbn [Market.has_count to_market Market.stock_entry Market.stock_items
       Market.count].
  rewrite filter_cons. destruct (decide (Seller.stock e ≠ 0)) as [Hne|Heq].
  - by rewrite (proj2 (Z.eqb_neq _ _) Hne).
  - apply dec_stable in Heq. by rewrite (proj2 (Z.eqb_eq _ _) Heq).
Qed.

(** [upload_stocks] of market.py reads [items[0]] of every entry it has
    built.  Every entry [create_stocks] builds carries exactly one item, so
    this never raises [IndexError]: whatever the feed, the identifiers and
    the endpoints are, a run that ends has either raised an exception of the
    functions it calls or returned its two lists. *)
Theorem market_upload_stocks_never_index_error {Srv Resp : Type}
    (get_product_list :
       option string → string → string → Srv → Res Market.OfferPage * Srv)
    (update_stocks :
       list Market.Stock → string → string → Srv → Res Resp * Srv)
    (fuel : nat) (utcnow : string) (F : list Watch)
    (campaign_id market_token warehouse_id : string) (srv : Srv) :
  Market.upload_stocks get_product_list update_stocks fuel utcnow F
    campaign_id market_token warehouse_id srv = None ∨
  (∃ e srv' sent,
     Market.upload_stocks get_product_list update_stocks fuel utcnow F
       campaign_id market_token warehouse_id srv
     = Some (Market.Raised e, srv', sent)) ∨
  (∃ not_empty stocks srv' sent,
     Market.upload_stocks get_product_list update_stocks fuel utcnow F
       campaign_id market_token warehouse_id srv
     = Some (Market.Uploaded not_empty stocks, srv', sent)).
Proof.
  unfold Market.upload_stocks.
  destruct (Market.get_offer_ids _ _ _ _ _) as [[[ids|e] srv1]|];
    [|right; left; by eexists _, _, _|by left].
  rewrite market_create_stocks_sim.
  destruct (Seller.create_stocks F ids) as [[out|e] S'];
    cbn [fst snd res_map]; [|right; left; by eexists _, _, _].
  destruct (divide (to_market warehouse_id utcnow <$> out) 2000)
    as [batches|e]; [|right; left; by eexists _, _, _].
  destruct (for_each _ batches srv1) as [[[[]|e] srv2] sent1];
    [|right; left; by eexists _, _, _].
  rewrite filter_has_count_to_market. right. right. by eexists _, _, _, _.
Qed.



(** ** [upload_prices] *)

(** When the identifiers resolve, every matched record has a string as
    price and the endpoint takes batches of 1 to 1000 entries,
    [upload_prices] of seller.py returns the price entries of the matched
    records, in feed order, having posted each of them exactly once, in
    order, in batches of at most 1000. *)
Theorem seller_upload_prices_posts_every_price {Srv Resp : Type}
    (get_product_list :
       string → string → string → Srv → Res Seller.ProductPage * Srv)
    (update_price :
       list Seller.Price → string → string → Srv → Res Resp * Srv)
    (fuel : nat) (F : list Watch) (client_id seller_token : string)
    (srv srv1 : Srv) (ids : list string) :
  Seller.get_offer_ids get_product_list fuel client_id seller_token srv
    = Some (Ok ids, srv1) →
  ¬ (∃ w, w ∈ F ∧ stringless_price ids w) →
  (∀ batch s, (0 < length batch ≤ 1000)%nat →
     ∃ resp s', update_price batch client_id seller_token s = (Ok resp, s')) →
  ∃ srv2 sent,
    Seller.upload_prices get_product_list update_price
      fuel F client_id seller_token srv
      = Some (Ok (seller_price_entry <$> filter (matched ids) F), srv2, sent) ∧
    concat sent = seller_price_entry <$> filter (matched ids) F ∧
    Forall (λ batch, (0 < length batch ≤ 1000)%nat) sent.
Proof.
  intros Hids Hstr Hacc. unfold Seller.upload_prices. rewrite Hids.
  destruct (seller_prices_loop_cases F ids []) as [[Hex _]|[_ Hrun]].
  { exfalso. apply Hstr. by apply Exists_exists. }
  unfold Seller.create_prices. rewrite Hrun. cbn [app].
  destruct (divide_chunk_sizes
              (seller_price_entry <$> filter (matched ids) F) 1000 ltac:(lia))
    as (batches & -> & Hconcat & Hsizes).
  destruct (for_each_accepted
              (λ some_price, update_price some_price client_id seller_token)
              batches srv1) as [srv2 ->].
  { intros batch s Hb. apply Hacc.
    by apply (proj1 (Forall_forall _ _) Hsizes). }
  by exists srv2, batches.
Qed.

Lemma seller_upload_prices_posts_every_price_witness :
  ∃ srv2 sent,
    Seller.upload_prices seller_two_pages accept_batch
      5 feed_AB_priced "client" "token" ()
      = Some (Ok (seller_price_entry <$>
                  filter (matched ["A"; "B"; "C"]) feed_AB_priced), srv2, sent) ∧
    concat sent
      = seller_price_entry <$> filter (matched ["A"; "B"; "C"]) feed_AB_priced ∧
    Forall (λ batch, (0 < length batch ≤ 1000)%nat) sent.
Proof.
  apply (seller_upload_prices_posts_every_price
           seller_two_pages accept_batch 5 feed_AB_priced "client" "token"
           () ()).
  - vm_compute. reflexivity.
  - intros (w & Hw & _ & Hno). unfold feed_AB_priced in Hw.
    apply elem_of_cons in Hw as [->|Hw]; [by apply (Hno "5'990.00 руб.")|].
    apply list_elem_of_singleton in Hw as ->. by apply (Hno "100").
  - intros batch s _. by eexists _, _.
Defined.



(** ** [main] of seller.py *)

(** The [try] block of [main] in seller.py hands to [create_prices] the
    identifier list that [create_stocks] has just emptied of every matched
    identifier.  When the resolved identifiers are free of duplicates, no
    feed record matches what is left, so the block never posts a price
    batch, whether it completes or raises. *)
Theorem seller_main_posts_no_price {Srv Resp : Type}
    (get_product_list :
       string → string → string → Srv → Res Seller.ProductPage * Srv)
    (update_stocks :
       list Seller.Stock → string → string → Srv → Res Resp * Srv)
    (update_price :
       list Seller.Price → string → string → Srv → Res Resp * Srv)
    (download_stock : Srv → Res (list Watch) * Srv)
    (fuel : nat) (client_id seller_token : string) (srv srv' : Srv)
    (r : Res unit) (sent : list (list Seller.Stock))
    (price_sent : list (list Seller.Price)) :
  (∀ ids s,
     Seller.get_offer_ids get_product_list fuel client_id seller_token srv
       = Some (Ok ids, s) → NoDup ids) →
  Seller.main_try get_product_list update_stocks update_price download_stock
    fuel client_id seller_token srv = Some (r, srv', sent, price_sent) →
  price_sent = [].
Proof.
  intros Hnd. unfold Seller.main_try.
  destruct (Seller.get_offer_ids _ _ _ _ _) as [[[ids|e] srv1]|] eqn:Hids;
    [|by intros [= _ _ _ <-]|done].
  specialize (Hnd ids srv1 eq_refl).
  destruct (download_stock srv1) as [[F|e] srv2]; [|by intros [= _ _ _ <-]].
  destruct (Seller.create_stocks F ids) as [[stocks|e] S'] eqn:Hstocks;
    [|by intros [= _ _ _ <-]].
  destruct (divide stocks 100) as [batches|e]; [|by intros [= _ _ _ <-]].
  destruct (for_each _ batches srv2) as [[[[]|e] srv3] sent1];
    [|by intros [= _ _ _ <-]].
  rewrite (create_prices_after_create_stocks F ids stocks S' Hnd Hstocks).
  change (divide (@nil Seller.Price) 900) with (@Ok (list (list Seller.Price)) []).
  simpl. by intros [= _ _ _ <-].
Qed.

Lemma seller_main_posts_no_price_witness :
  Seller.main_try seller_two_pages accept_batch accept_batch download_AB_priced
    5 "client" "token" ()
  = Some (Ok (), (),
          [ [ {| Seller.offer_id := "A"; Seller.stock := 100 |};
              {| Seller.offer_id := "B"; Seller.stock := 0 |};
              {| Seller.offer_id := "C"; Seller.stock := 0 |} ] ],
          []) ∧
  (@nil (list Seller.Price)) = [].
Proof.
  split; [vm_compute; reflexivity|].
  apply (seller_main_posts_no_price
           seller_two_pages accept_batch accept_batch download_AB_priced
           5 "client" "token" () () (Ok ())
           [ [ {| Seller.offer_id := "A"; Seller.stock := 100 |};
               {| Seller.offer_id := "B"; Seller.stock := 0 |};
               {| Seller.offer_id := "C"; Seller.stock := 0 |} ] ]).
  - intros ids s Hids. vm_compute in Hids. injection Hids as <- _.
    apply (bool_decide_unpack (NoDup ["A"; "B"; "C"])). vm_compute. exact I.
  - vm_compute. reflexivity.
Defined.
